(** * Explain Selection With AI: the pure logic of [lib.ts] and the
      stateful helpers of [main.ts], embedded and verified.

    JavaScript strings are sequences of UTF-16 code units; they are
    modelled as lists of code units ([list N]), so that [length],
    [substring] and the regular-expression scans count what the source
    counts.  Typed functions of [lib.ts] take records; the functions whose
    parameter is [any] take a dynamically typed [value]. *)

From Stdlib Require Import ZArith List Bool Lia String Ascii Sorted.
From Stdlib Require Import DecimalN.
From stdpp Require Import base list gmap.
Import ListNotations.

(** ** JavaScript strings *)

Module JS.

(** A string literal of the source, as code units. *)
Definition lit (s : string) : list N :=
  List.map N_of_ascii (list_ascii_of_string s).

(** [s.startsWith(p)] *)
Fixpoint startsWith (s p : list N) {struct p} : bool :=
  match p, s with
  | [], _ => true
  | _ :: _, [] => false
  | a :: p', b :: s' => N.eqb a b && startsWith s' p'
  end.

(** [s.endsWith(p)] *)
Definition endsWith (s p : list N) : bool :=
  startsWith (rev s) (rev p).

(** [ToIntegerOrInfinity] followed by the clamp to [0, len] that
    [String.prototype.substring] applies to each of its arguments. *)
Definition clamp (len : nat) (z : Z) : nat :=
  Z.to_nat (Z.min (Z.max z 0) (Z.of_nat len)).

(** [s.substring(start, end)]: both ends clamped, swapped when out of
    order. *)
Definition substring (s : list N) (start end_ : Z) : list N :=
  let a := clamp (length s) start in
  let b := clamp (length s) end_ in
  firstn (Nat.max a b - Nat.min a b) (skipn (Nat.min a b) s).

(** [s.replace(/pat/g, () => rep)] for a regular expression that is a
    non-empty literal: a left-to-right scan, each match replaced by [rep]
    verbatim (the replacer is a function, so no dollar pattern is read),
    the scan resuming after the match.  [skip] counts the code units of
    the current match that are still to be consumed. *)
Fixpoint replaceFrom (pat rep : list N) (skip : nat) (s : list N) : list N :=
  match s with
  | [] => []
  | c :: s' =>
      match skip with
      | S k => replaceFrom pat rep k s'
      | O =>
          if startsWith s pat
          then rep ++ replaceFrom pat rep (length pat - 1) s'
          else c :: replaceFrom pat rep 0 s'
      end
  end.

Definition replaceAll (pat rep s : list N) : list N :=
  replaceFrom pat rep 0 s.

(** White space and line terminators, the code units that
    [String.prototype.trim] strips. *)
Definition isWhiteSpace (c : N) : bool :=
  existsb (N.eqb c)
    [9; 10; 11; 12; 13; 32; 160; 5760; 8232; 8233; 8239; 8287; 12288; 65279]%N
  || (N.leb 8192 c && N.leb c 8202).

Fixpoint trimStart (s : list N) : list N :=
  match s with
  | c :: s' => if isWhiteSpace c then trimStart s' else s
  | [] => []
  end.

Definition trimEnd (s : list N) : list N := rev (trimStart (rev s)).

(** [s.trim()] *)
Definition trim (s : list N) : list N := trimEnd (trimStart s).

(** Decimal rendering of a non-negative integer, as a template literal
    interpolates a counter. *)
Fixpoint digits (d : Decimal.uint) : list N :=
  match d with
  | Decimal.Nil => []
  | Decimal.D0 d' => 48%N :: digits d'
  | Decimal.D1 d' => 49%N :: digits d'
  | Decimal.D2 d' => 50%N :: digits d'
  | Decimal.D3 d' => 51%N :: digits d'
  | Decimal.D4 d' => 52%N :: digits d'
  | Decimal.D5 d' => 53%N :: digits d'
  | Decimal.D6 d' => 54%N :: digits d'
  | Decimal.D7 d' => 55%N :: digits d'
  | Decimal.D8 d' => 56%N :: digits d'
  | Decimal.D9 d' => 57%N :: digits d'
  end.

Definition numberToString (n : N) : list N := digits (N.to_uint n).

End JS.

Import JS.

(** ** [lib.ts]: prompt building *)

Definition ph_selection : list N := lit "{{selection}}".
Definition ph_context : list N := lit "{{context}}".
Definition ellipsis : list N := lit "...".

Definition buildPrompt (template selection context : list N) : list N :=
  replaceAll ph_context context (replaceAll ph_selection selection template).

Definition buildMenuLabel (template selection : list N) (maxLength : Z)
  : list N :=
  let truncatedSelection :=
    if (24 <? Z.of_nat (length selection))%Z
    then substring selection 0 24 ++ ellipsis
    else selection in
  let label :=
    replaceAll ph_context ellipsis
      (replaceAll ph_selection truncatedSelection template) in
  if (maxLength <? Z.of_nat (length label))%Z
  then substring label 0 (maxLength - 3) ++ ellipsis
  else label.

(** ** [lib.ts]: file names *)

(** The character class of [sanitizeFileName], by code unit: asterisk,
    double quote, backslash, slash, less-than, greater-than, colon,
    vertical bar and question mark. *)
Definition forbidden (c : N) : bool :=
  existsb (N.eqb c) [42; 34; 92; 47; 60; 62; 58; 124; 63]%N.

Definition fallbackLabel : list N := lit "AI Explanation".

Definition sanitizeFileName (name : list N) : list N :=
  let r :=
    trim (substring (List.filter (fun c => negb (forbidden c)) name) 0 100) in
  match r with
  | [] => fallbackLabel
  | _ :: _ => r
  end.

(** ** [lib.ts]: provider configuration *)

Module Settings.
Record t := {
  dropdownValue : list N;
  baseURL : list N;
  endpoint : list N;
  apiKey : list N;
  openRouterModel : list N;
  openRouterApiKey : list N;
  openRouterReferer : list N;
  openRouterTitle : list N;
  systemPrompt : list N;
  userPromptTemplate : list N
}.
End Settings.

Module ProviderConfig.
Record t := {
  baseURL : list N;
  apiKey : list N;
  model : list N;
  defaultHeaders : option (gmap (list N) (list N))
}.
End ProviderConfig.

Definition DEFAULT_SETTINGS : Settings.t := {|
  Settings.dropdownValue := lit "openai";
  Settings.baseURL := lit "https://api.openai.com/v1/";
  Settings.endpoint := lit "gpt-4o-mini";
  Settings.apiKey := [];
  Settings.openRouterModel := lit "anthropic/claude-sonnet-4";
  Settings.openRouterApiKey := [];
  Settings.openRouterReferer := [];
  Settings.openRouterTitle := lit "Obsidian Explain Selection";
  Settings.systemPrompt := lit "You are a helpful assistant.";
  Settings.userPromptTemplate :=
    lit "Explain " ++ [34%N] ++ lit "{{selection}}" ++ [34%N]
      ++ lit " in the context of " ++ [34%N] ++ lit "{{context}}" ++ [34%N]
|}.

(** Truthiness of a string: non-empty. *)
Definition nonEmpty (s : list N) : bool :=
  match s with [] => false | _ :: _ => true end.

Definition getProviderConfig (settings : Settings.t) : ProviderConfig.t :=
  let isOpenRouter :=
    bool_decide (Settings.dropdownValue settings = lit "openrouter") in
  let baseURL :=
    if isOpenRouter then lit "https://openrouter.ai/api/v1"
    else Settings.baseURL settings in
  let apiKey :=
    if isOpenRouter then Settings.openRouterApiKey settings
    else Settings.apiKey settings in
  let model :=
    if isOpenRouter then Settings.openRouterModel settings
    else Settings.endpoint settings in
  let h0 : gmap (list N) (list N) := ∅ in
  let h1 :=
    if isOpenRouter && nonEmpty (Settings.openRouterReferer settings)
    then <[lit "HTTP-Referer" := Settings.openRouterReferer settings]> h0
    else h0 in
  let defaultHeaders :=
    if isOpenRouter && nonEmpty (Settings.openRouterTitle settings)
    then <[lit "X-Title" := Settings.openRouterTitle settings]> h1
    else h1 in
  {| ProviderConfig.baseURL := baseURL;
     ProviderConfig.apiKey :=
       if bool_decide (apiKey = []) then lit "-" else apiKey;
     ProviderConfig.model := model;
     ProviderConfig.defaultHeaders :=
       if (0 <? size defaultHeaders)%nat then Some defaultHeaders else None |}.

(** ** Dynamically typed values and exceptions *)

(** What [JSON.parse] can produce, and [undefined].  Numbers carry an
    integer: only their truthiness is ever inspected.  An object is its
    list of own properties. *)
#[warnings="-register-all"]
Inductive value :=
| VUndefined
| VNull
| VBool (b : bool)
| VNum (z : Z)
| VStr (s : list N)
| VArr (items : list value)
| VObj (props : list (list N * value)).

Inductive error :=
| TypeError
| Error (message : list N)
| RequestFailed.

Inductive result (A : Type) :=
| Ok (a : A)
| Throw (e : error).
Arguments Ok {A} a.
Arguments Throw {A} e.

#[global] Instance result_ret : MRet result := fun A a => Ok a.
#[global] Instance result_bind : MBind result := fun A B f r =>
  match r with Ok a => f a | Throw e => Throw e end.

Fixpoint mapM {A B} (f : A -> result B) (l : list A) : result (list B) :=
  match l with
  | [] => Ok []
  | x :: l' => y ← f x; ys ← mapM f l'; Ok (y :: ys)
  end.

Definition truthy (v : value) : bool :=
  match v with
  | VUndefined | VNull => false
  | VBool b => b
  | VNum z => negb (z =? 0)%Z
  | VStr s => nonEmpty s
  | VArr _ | VObj _ => true
  end.

Fixpoint lookupProp (props : list (list N * value)) (k : list N) : value :=
  match props with
  | [] => VUndefined
  | (k', v) :: rest => if bool_decide (k' = k) then v else lookupProp rest k
  end.

(** [v.k] for a property name [k] that no prototype defines ([data],
    [models], [id], [name], [pricing], [prompt], [completion]): a
    [TypeError] on [undefined] and [null], [undefined] on primitives and
    arrays, the own property on objects. *)
Definition getProp (v : value) (k : list N) : result value :=
  match v with
  | VUndefined | VNull => Throw TypeError
  | VObj props => Ok (lookupProp props k)
  | _ => Ok VUndefined
  end.

(** [v?.k] *)
Definition optProp (v : value) (k : list N) : result value :=
  match v with
  | VUndefined | VNull => Ok VUndefined
  | _ => getProp v k
  end.

(** [(data && data.k) || []] *)
Definition fieldOrEmpty (data : value) (k : list N) : result value :=
  inner ← (if truthy data then getProp data k else Ok data);
  Ok (if truthy inner then inner else VArr []).

(** [arr.map(f)]: only arrays have a [map] method. *)
Definition arrayMap (f : value -> result value) (arr : value)
  : result (list value) :=
  match arr with
  | VArr items => mapM f items
  | _ => Throw TypeError
  end.

Definition asString (v : value) : option (list N) :=
  match v with VStr s => Some s | _ => None end.

(** ** [lib.ts]: the model catalogue *)

(** The [{ id: string }] entries that [filterOpenAIModels] is typed to
    receive. *)
Record RawModel := { raw_id : list N }.

Module ModelInfo.
Record t := {
  id : list N;
  name : option (list N);
  pricing : option (list N * list N)
}.
End ModelInfo.

Definition chatPrefixes : list (list N) :=
  [lit "gpt-"; lit "o1"; lit "o3"; lit "o4"; lit "chatgpt-"].

Definition excludePrefixes : list (list N) :=
  [lit "dall-e"; lit "tts-"; lit "whisper"; lit "embedding";
   lit "text-embedding"; lit "babbage"; lit "davinci"].

Definition matchesChat (id : list N) : bool :=
  existsb (startsWith id) chatPrefixes.

Definition excluded (id : list N) : bool :=
  existsb (startsWith id) excludePrefixes.

Definition keepModel (m : RawModel) : bool :=
  matchesChat (raw_id m) && negb (excluded (raw_id m)).

Definition idOnly (m : RawModel) : ModelInfo.t :=
  {| ModelInfo.id := raw_id m;
     ModelInfo.name := None;
     ModelInfo.pricing := None |}.

(** The run-time object of a [ModelInfo]. *)
Definition toValue (m : ModelInfo.t) : value :=
  VObj ((lit "id", VStr (ModelInfo.id m))
        :: match ModelInfo.name m with
           | Some n => [(lit "name", VStr n)]
           | None => []
           end
        ++ match ModelInfo.pricing m with
           | Some (p, c) =>
               [(lit "pricing",
                 VObj [(lit "prompt", VStr p); (lit "completion", VStr c)])]
           | None => []
           end).

(** [m.id] of an entry of a result list. *)
Definition idOf (m : value) : value :=
  match m with
  | VObj props => lookupProp props (lit "id")
  | _ => VUndefined
  end.

Definition deriveOllamaBaseUrl (baseURL : list N) : list N :=
  if negb (nonEmpty baseURL) then lit "http://localhost:11434"
  else if endsWith baseURL (lit "/v1/")
       then firstn (length baseURL - 4) baseURL
  else if endsWith baseURL (lit "/v1")
       then firstn (length baseURL - 3) baseURL
  else baseURL.

Section Catalogue.

(** [a.localeCompare(b)]: the host's collation, a parameter of the
    development. *)
Variable localeCompare : list N -> list N -> Z.

(** [Array.prototype.sort] is stable; with a consistent comparator its
    result is the stable sorted arrangement, which insertion from the
    right computes. *)
Fixpoint insertBy {A} (key : A -> list N) (x : A) (l : list A) : list A :=
  match l with
  | [] => [x]
  | y :: l' =>
      if (localeCompare (key x) (key y) <=? 0)%Z then x :: l
      else y :: insertBy key x l'
  end.

Definition sortBy {A} (key : A -> list N) (l : list A) : list A :=
  foldr (insertBy key) [] l.

(** [a] may stand before [b] in ascending order of [key]. *)
Definition ascending {A} (key : A -> list N) (a b : A) : Prop :=
  (localeCompare (key a) (key b) <= 0)%Z.

Definition filterOpenAIModels (models : list RawModel) : list ModelInfo.t :=
  sortBy ModelInfo.id (List.map idOnly (List.filter keepModel models)).

(** [models.sort((a, b) => a.id.localeCompare(b.id))] on run-time
    objects.  The comparator is not called on fewer than two entries.
    Otherwise it raises when its receiver [a.id] is not a string; which
    entry is the receiver depends on the engine, and the model raises as
    soon as some id is not a string. *)
Definition sortById (l : list value) : result (list value) :=
  match l with
  | [] | [_] => Ok l
  | _ =>
      if forallb (fun m => bool_decide (is_Some (asString (idOf m)))) l
      then Ok (sortBy (fun m => default [] (asString (idOf m))) l)
      else Throw TypeError
  end.

Definition openRouterEntry (m : value) : result value :=
  id ← getProp m (lit "id");
  name ← getProp m (lit "name");
  pricing ← getProp m (lit "pricing");
  prompt ← optProp pricing (lit "prompt");
  both ← (if truthy prompt then optProp pricing (lit "completion")
          else Ok prompt);
  completion ← optProp pricing (lit "completion");
  Ok (VObj [(lit "id", id);
            (lit "name", if truthy name then name else VUndefined);
            (lit "pricing",
             if truthy both
             then VObj [(lit "prompt", prompt); (lit "completion", completion)]
             else VUndefined)]).

Definition parseOpenRouterModels (data : value) : result (list value) :=
  arr ← fieldOrEmpty data (lit "data");
  models ← arrayMap openRouterEntry arr;
  sortById models.

Definition ollamaEntry (m : value) : result value :=
  name ← getProp m (lit "name");
  Ok (VObj [(lit "id", name)]).

Definition parseOllamaModels (data : value) : result (list value) :=
  arr ← fieldOrEmpty data (lit "models");
  models ← arrayMap ollamaEntry arr;
  sortById models.

(** [filterOpenAIModels] applied to an untyped array, as
    [fetchModelsForProvider] does: [m.id.startsWith] raises on the first
    entry whose id is not a string. *)
Definition rawModel (m : value) : result RawModel :=
  id ← getProp m (lit "id");
  match id with
  | VStr s => Ok {| raw_id := s |}
  | _ => Throw TypeError
  end.

Definition filterOpenAIModels_any (models : value) : result (list value) :=
  match models with
  | VArr items =>
      raws ← mapM rawModel items;
      Ok (List.map toValue (filterOpenAIModels raws))
  | _ => Throw TypeError
  end.

(** ** [main.ts]: the model cache *)

Record Request := { url : list N; authorization : option (list N) }.

(** [requestUrl] answers a request with the parsed body of the response,
    or raises.  The result is paired with the requests that were sent.
    [provider] is one of the values of the provider dropdown. *)
Definition fetchModelsForProvider
    (requestUrl : Request -> result value)
    (modelCache : gmap (list N) (list value))
    (provider : list N) (apiKey baseURL : option (list N))
  : result (list value) * list Request :=
  match modelCache !! provider with
  | Some cached => (Ok cached, [])
  | None =>
      if bool_decide (provider = lit "openrouter") then
        let req := {| url := lit "https://openrouter.ai/api/v1/models";
                      authorization := None |} in
        (json ← requestUrl req; parseOpenRouterModels json, [req])
      else if bool_decide (provider = lit "openai") then
        if nonEmpty (default [] apiKey) then
          let req := {| url := lit "https://api.openai.com/v1/models";
                        authorization :=
                          Some (lit "Bearer " ++ default [] apiKey) |} in
          (json ← requestUrl req;
           data ← getProp json (lit "data");
           filterOpenAIModels_any (if truthy data then data else VArr []),
           [req])
        else
          (Throw (Error (lit "OpenAI API key is required to fetch models.")),
           [])
      else if bool_decide (provider = lit "ollama") then
        let req := {| url := deriveOllamaBaseUrl (default [] baseURL)
                               ++ lit "/api/tags";
                      authorization := None |} in
        (json ← requestUrl req; parseOllamaModels json, [req])
      else
        (Throw (Error (lit "No model fetching for provider: " ++ provider)),
         [])
  end.

(** [ModelPickerModal.onOpen]: the only writer of the cache. *)
Definition pickerOnOpen
    (requestUrl : Request -> result value)
    (modelCache : gmap (list N) (list value))
    (provider : list N) (apiKey baseURL : option (list N))
  : gmap (list N) (list value) * list Request :=
  match fetchModelsForProvider requestUrl modelCache provider apiKey baseURL with
  | (Ok allModels, sent) => (<[provider := allModels]> modelCache, sent)
  | (Throw _, sent) => (modelCache, sent)
  end.

(** What happens to the cache during the life of the process: model
    pickers are opened, each against the network of its moment, and
    explanation modals read the cache. *)
Inductive event :=
| OpenPicker (requestUrl : Request -> result value)
    (provider : list N) (apiKey baseURL : option (list N))
| OpenExplain (provider : list N).

Definition step (modelCache : gmap (list N) (list value)) (e : event)
  : gmap (list N) (list value) :=
  match e with
  | OpenPicker requestUrl provider apiKey baseURL =>
      fst (pickerOnOpen requestUrl modelCache provider apiKey baseURL)
  | OpenExplain _ => modelCache
  end.

Definition run (modelCache : gmap (list N) (list value)) (es : list event)
  : gmap (list N) (list value) :=
  fold_left step es modelCache.

End Catalogue.

(** ** [main.ts]: saving a numbered copy *)

(** [parentPath ? `${parentPath}/${base}.md` : `${base}.md`] *)
Definition notePath (parentPath base : list N) : list N :=
  if nonEmpty parentPath then parentPath ++ lit "/" ++ base ++ lit ".md"
  else base ++ lit ".md".

Definition numberedPath (parentPath fileName : list N) (counter : N)
  : list N :=
  notePath parentPath (fileName ++ lit " " ++ numberToString counter).

(** The [while] loop of [handleChoice("new")], [fuel] bounding the number
    of existence checks; [exists_] is [vault.adapter.exists]. *)
Fixpoint probe (exists_ : list N -> bool) (parentPath fileName : list N)
    (fuel : nat) (finalPath : list N) (counter : N) : option (list N) :=
  match fuel with
  | O => None
  | S fuel' =>
      if exists_ finalPath
      then probe exists_ parentPath fileName fuel'
             (numberedPath parentPath fileName counter) (counter + 1)%N
      else Some finalPath
  end.

(** The path that [handleChoice("new")] hands to [vault.create]. *)
Definition handleChoiceNew (exists_ : list N -> bool)
    (parentPath fileName : list N) (fuel : nat) : option (list N) :=
  probe exists_ parentPath fileName fuel (notePath parentPath fileName) 1%N.

(** ** [main.ts]: accounting of a streamed response *)

(** A chunk of the stream: [choices[0]?.delta?.content] and [usage]
    ([prompt_tokens], [completion_tokens]). *)
Record Chunk := {
  content : option (list N);
  usage : option (Z * Z)
}.

Record Session := {
  rollingText : list N;
  promptTokens : Z;
  completionTokens : Z;
  startTime : Z;
  firstTokenTime : option Z
}.

Definition openSession (now : Z) : Session :=
  {| rollingText := [];
     promptTokens := 0;
     completionTokens := 0;
     startTime := now;
     firstTokenTime := None |}.

(** One iteration of the [for await] loop; [now] is what [Date.now()]
    returns when the chunk arrives. *)
Definition onChunk (s : Session) (arrival : Z * Chunk) : Session :=
  let (now, chunk) := arrival in
  let s1 :=
    if nonEmpty (default [] (content chunk)) then
      {| rollingText := rollingText s ++ default [] (content chunk);
         promptTokens := promptTokens s;
         completionTokens := completionTokens s;
         startTime := startTime s;
         firstTokenTime :=
           match firstTokenTime s with
           | None => Some now
           | Some t => Some t
           end |}
    else s in
  match usage chunk with
  | Some (p, c) =>
      {| rollingText := rollingText s1;
         promptTokens := p;
         completionTokens := c;
         startTime := startTime s1;
         firstTokenTime := firstTokenTime s1 |}
  | None => s1
  end.

(** The value of [tps]: the literal ["0.00"], or the quotient
    [completionTokens / (totalDuration / 1000)] rendered by [toFixed(2)].
    The quotient is kept by its operands: it is infinite exactly when the
    duration is zero. *)
Inductive Tps :=
| TpsZero
| TpsQuotient (tokens durationMs : Z).

Record Metrics := {
  totalDuration : Z;
  ttft : Z;
  tps : Tps
}.

Definition finish (endTime : Z) (s : Session) : Metrics :=
  let totalDuration := (endTime - startTime s)%Z in
  {| totalDuration := totalDuration;
     ttft :=
       match firstTokenTime s with
       | Some t => if (t =? 0)%Z then 0%Z else (t - startTime s)%Z
       | None => 0%Z
       end;
     tps :=
       if (0 <? completionTokens s)%Z
       then TpsQuotient (completionTokens s) totalDuration
       else TpsZero |}.

(** A completed streaming session: the clock at the start, the chunks
    with the clock at their arrival, the clock at the end. *)
Definition session (start : Z) (chunks : list (Z * Chunk)) (endTime : Z)
  : Session * Metrics :=
  let s := fold_left onChunk chunks (openSession start) in
  (s, finish endTime s).

(** Whether the value of [tps] is a finite number. *)
Definition tpsFinite (t : Tps) : bool :=
  match t with
  | TpsZero => true
  | TpsQuotient _ d => negb (d =? 0)%Z
  end.

(** ** Vocabulary of the statements *)

(** Whether the payload has the top-level field [k]: only an object can,
    among its own properties. *)
Definition hasField (data : value) (k : list N) : bool :=
  match data with
  | VObj props => existsb (fun kv => bool_decide (fst kv = k)) props
  | _ => false
  end.

(** Comparison by code units, a collation that orders every pair of
    strings. *)
Fixpoint ordinalCompare (a b : list N) : Z :=
  match a, b with
  | [], [] => 0
  | [], _ :: _ => -1
  | _ :: _, [] => 1
  | x :: a', y :: b' =>
      if (x <? y)%N then -1
      else if (y <? x)%N then 1
      else ordinalCompare a' b'
  end.

(** The settings of the repository's test of a referer without a
    title. *)
Definition refererOnlySettings : Settings.t := {|
  Settings.dropdownValue := lit "openrouter";
  Settings.baseURL := lit "https://api.openai.com/v1/";
  Settings.endpoint := lit "gpt-4o-mini";
  Settings.apiKey := [];
  Settings.openRouterModel := lit "m";
  Settings.openRouterApiKey := lit "key";
  Settings.openRouterReferer := lit "https://ref.com";
  Settings.openRouterTitle := [];
  Settings.systemPrompt := lit "You are a helpful assistant.";
  Settings.userPromptTemplate := lit "{{selection}}"
|}.

(** The key that [getProviderConfig] resolves before the placeholder
    rule. *)
Definition resolvedKey (settings : Settings.t) : list N :=
  if bool_decide (Settings.dropdownValue settings = lit "openrouter")
  then Settings.openRouterApiKey settings
  else Settings.apiKey settings.

(** A result of [filterOpenAIModels] read again as its input: the
    [{ id }] record of each entry. *)
Definition asRawModel (m : ModelInfo.t) : RawModel :=
  {| raw_id := ModelInfo.id m |}.

(** A listing in the manner of the repository's tests. *)
Definition listingExample : list RawModel :=
  [ {| raw_id := lit "gpt-4o" |};
    {| raw_id := lit "whisper-1" |};
    {| raw_id := lit "chatgpt-4o-latest" |};
    {| raw_id := lit "text-embedding-ada-002" |};
    {| raw_id := lit "gpt-3.5-turbo" |};
    {| raw_id := lit "o1-mini" |} ].

(** A network that answers every request with the same body. *)
Definition answerWith (body : value) : Request -> result value :=
  fun _ => Ok body.

(** A vault in which the note and its first two numbered copies exist. *)
Definition vaultExample (path : list N) : bool :=
  bool_decide (path ∈ [lit "notes/Topic.md"; lit "notes/Topic 1.md";
                       lit "notes/Topic 2.md"]).

(** A session in which the clock reads the same millisecond from start
    to end: two chunks of content, then the usage. *)
Definition instantChunks : list (Z * Chunk) :=
  [ (1000%Z, {| content := Some (lit "Hel"); usage := None |});
    (1000%Z, {| content := Some (lit "lo"); usage := None |});
    (1000%Z, {| content := None; usage := Some (10%Z, 2%Z) |}) ].

(** Whether a chunk bears content. *)
Definition bearsContent (arrival : Z * Chunk) : bool :=
  nonEmpty (default [] (content (snd arrival))).

(** The existence check of a vault that holds finitely many paths. *)
Definition existsIn (vault : gset (list N)) (path : list N) : bool :=
  bool_decide (path ∈ vault).

(** ** The prompt builder as the specification words it *)

(** One scan of the template in which both placeholders are recognised;
    the text put in their place is not scanned. *)
Fixpoint spec_substituteFrom (selection context : list N) (skip : nat)
    (template : list N) : list N :=
  match template with
  | [] => []
  | c :: t' =>
      match skip with
      | S k => spec_substituteFrom selection context k t'
      | O =>
          if startsWith template ph_selection
          then selection
                 ++ spec_substituteFrom selection context
                      (length ph_selection - 1) t'
          else if startsWith template ph_context
          then context
                 ++ spec_substituteFrom selection context
                      (length ph_context - 1) t'
          else c :: spec_substituteFrom selection context 0 t'
      end
  end.

Definition spec_substitute (template selection context : list N) : list N :=
  spec_substituteFrom selection context 0 template.

(** Input truncation: 24 code units and the marker, when longer. *)
Definition spec_cutSelection (selection : list N) : list N :=
  if (24 <? length selection)%nat then firstn 24 selection ++ ellipsis
  else selection.

(** Output truncation: [maxLength - 3] code units and the marker, when
    longer than [maxLength]. *)
Definition spec_hardTruncate (maxLength : nat) (label : list N) : list N :=
  if (maxLength <? length label)%nat
  then firstn (maxLength - 3) label ++ ellipsis
  else label.

(** The label before output truncation. *)
Definition spec_expandLabel (template selection : list N) : list N :=
  replaceAll ph_context ellipsis
    (replaceAll ph_selection (spec_cutSelection selection) template).

(** ** [lib.ts]: searching the catalogue *)

(** [s.includes(q)] *)
Fixpoint includes (s q : list N) : bool :=
  startsWith s q
  || match s with
     | [] => false
     | _ :: s' => includes s' q
     end.

Section Search.

(** [s.toLowerCase()]: the host's case mapping, a parameter of the
    development. *)
Variable toLowerCase : list N -> list N.

(** The callback of the filter, [lower] being the lowered query. *)
Definition matchesQuery (lower : list N) (m : ModelInfo.t) : bool :=
  includes (toLowerCase (ModelInfo.id m)) lower
  || match ModelInfo.name m with
     | Some n => nonEmpty n && includes (toLowerCase n) lower
     | None => false
     end.

Definition filterModels (models : list ModelInfo.t) (query : list N)
  : list ModelInfo.t :=
  if negb (nonEmpty query) then models
  else List.filter (matchesQuery (toLowerCase query)) models.

End Search.

(** ** [main.ts]: the context of the selection *)

(** The part of the cursor's line that [openExplainModal] sends as
    context; [ch] is the column of the cursor. *)
Definition contextWindow (line : list N) (ch : Z) : list N :=
  substring line
    (if (0 <? ch - 500)%Z then (ch - 500)%Z else 0%Z)
    (if (ch + 500 <? Z.of_nat (length line))%Z then (ch + 500)%Z
     else Z.of_nat (length line)).

(** ** [main.ts]: the provider dropdown *)

(** The generic connection fields replaced, the rest kept. *)
Definition withGeneric (baseURL endpoint apiKey : list N) (s : Settings.t)
  : Settings.t :=
  {| Settings.dropdownValue := Settings.dropdownValue s;
     Settings.baseURL := baseURL;
     Settings.endpoint := endpoint;
     Settings.apiKey := apiKey;
     Settings.openRouterModel := Settings.openRouterModel s;
     Settings.openRouterApiKey := Settings.openRouterApiKey s;
     Settings.openRouterReferer := Settings.openRouterReferer s;
     Settings.openRouterTitle := Settings.openRouterTitle s;
     Settings.systemPrompt := Settings.systemPrompt s;
     Settings.userPromptTemplate := Settings.userPromptTemplate s |}.

Definition withProvider (value : list N) (s : Settings.t) : Settings.t :=
  {| Settings.dropdownValue := value;
     Settings.baseURL := Settings.baseURL s;
     Settings.endpoint := Settings.endpoint s;
     Settings.apiKey := Settings.apiKey s;
     Settings.openRouterModel := Settings.openRouterModel s;
     Settings.openRouterApiKey := Settings.openRouterApiKey s;
     Settings.openRouterReferer := Settings.openRouterReferer s;
     Settings.openRouterTitle := Settings.openRouterTitle s;
     Settings.systemPrompt := Settings.systemPrompt s;
     Settings.userPromptTemplate := Settings.userPromptTemplate s |}.

(** The [onChange] handler of the provider dropdown, up to the saving of
    the settings. *)
Definition onProviderChange (value : list N) (settings : Settings.t)
  : Settings.t :=
  let s := withProvider value settings in
  if bool_decide (value = lit "custom") then withGeneric [] [] [] s
  else if bool_decide (value = lit "openai") then
    withGeneric (lit "https://api.openai.com/v1/") (lit "gpt-4o-mini") [] s
  else if bool_decide (value = lit "ollama") then
    withGeneric (lit "http://localhost:11434/v1/") (lit "llama3") [] s
  else if bool_decide (value = lit "openrouter") then
    withGeneric (lit "https://openrouter.ai/api/v1") (Settings.endpoint s)
      (Settings.apiKey s) s
  else s.

(** ** [main.ts]: saving the note *)

(** [path.replace(/\.md$/, "")] *)
Definition stripMd (path : list N) : list N :=
  if endsWith path (lit ".md") then firstn (length path - 3) path
  else path.

(** The text that replaces the selection in the editor. *)
Definition wikiLink (finalPath userSelection : list N) : list N :=
  lit "[[" ++ stripMd finalPath ++ lit "|" ++ userSelection ++ lit "]]".

(** The separator of an appended explanation: two line feeds, three
    hyphens, two line feeds. *)
Definition separator : list N := [10; 10; 45; 45; 45; 10; 10]%N.

(** The vault is a finite map from paths to contents: [exists] is
    membership, [read] a lookup that fails on a missing path, [write] an
    insertion, [create] an insertion that fails on an existing path. *)
Definition vaultExists (vault : gmap (list N) (list N)) (path : list N)
  : bool :=
  bool_decide (is_Some (vault !! path)).

Definition vaultCreate (vault : gmap (list N) (list N))
    (path text : list N) : option (gmap (list N) (list N)) :=
  match vault !! path with
  | Some _ => None
  | None => Some (<[path := text]> vault)
  end.

Inductive mode :=
| Append
| New.

(** What a save leaves behind: the vault and the text that replaced the
    selection, or the notice of a failure with the vault as it was. *)
Inductive saveOutcome :=
| Saved (vault : gmap (list N) (list N)) (finalPath replacement : list N)
| SaveFailed.

(** [handleChoice(mode)]; [None] when [fuel] does not suffice for the
    loop. *)
Definition handleChoice (m : mode) (vault : gmap (list N) (list N))
    (parentPath fileName fullText userSelection : list N) (fuel : nat)
  : option saveOutcome :=
  let fullPath := notePath parentPath fileName in
  match m with
  | Append =>
      match vault !! fullPath with
      | Some existing =>
          Some (Saved
                  (<[fullPath := existing ++ separator ++ fullText]> vault)
                  fullPath (wikiLink fullPath userSelection))
      | None => Some SaveFailed
      end
  | New =>
      match handleChoiceNew (vaultExists vault) parentPath fileName fuel with
      | Some finalPath =>
          match vaultCreate vault finalPath fullText with
          | Some vault' =>
              Some (Saved vault' finalPath (wikiLink finalPath userSelection))
          | None => Some SaveFailed
          end
      | None => None
      end
  end.

(** ** Vocabulary of the further statements *)

(** The providers of the pickers that a sequence of events opens. *)
Definition openedProviders (es : list event) : list (list N) :=
  flat_map
    (fun e =>
       match e with
       | OpenPicker _ provider _ _ => [provider]
       | OpenExplain _ => []
       end) es.

(** Whether a chunk carries usage. *)
Definition bearsUsage (arrival : Z * Chunk) : bool :=
  match usage (snd arrival) with
  | Some _ => true
  | None => false
  end.

(** The entry that lists a model by its [id] alone, and the entry of an
    Ollama listing. *)
Definition idEntry (id : list N) : value := VObj [(lit "id", VStr id)].
Definition nameEntry (name : list N) : value :=
  VObj [(lit "name", VStr name)].

(** Case mapping on the letters A to Z alone. *)
Definition asciiLower (s : list N) : list N :=
  List.map (fun c => if (N.leb 65 c && N.leb c 90)%bool then (c + 32)%N
                     else c) s.

(** * Properties *)

(** ** Strings *)

Lemma startsWith_app (p s : list N) : startsWith (p ++ s) p = true.
Proof.
  induction p as [|a p IH]; simpl; [done|].
  by rewrite N.eqb_refl, IH.
Qed.

Lemma endsWith_app (s p : list N) : endsWith (s ++ p) p = true.
Proof. unfold endsWith. rewrite rev_app_distr. apply startsWith_app. Qed.

Lemma startsWith_prefix (s p : list N) :
  startsWith s p = true -> s = p ++ skipn (length p) s.
Proof.
  revert s; induction p as [|a p IH]; intros s H; simpl in *; [done|].
  destruct s as [|b s]; [discriminate|].
  apply andb_true_iff in H as [Hab Hs].
  apply N.eqb_eq in Hab; subst b. simpl. f_equal. by apply IH.
Qed.

Lemma clamp_zero (len : nat) : clamp len 0 = 0.
Proof. unfold clamp. lia. Qed.

Lemma clamp_nonneg (len : nat) (z : Z) :
  (0 <= z)%Z -> clamp len z = Nat.min (Z.to_nat z) len.
Proof. unfold clamp. lia. Qed.

Lemma substring_prefix (s : list N) (n : Z) :
  (0 <= n)%Z -> substring s 0 n = firstn (Z.to_nat n) s.
Proof.
  intros Hn. unfold substring.
  rewrite clamp_zero, (clamp_nonneg _ _ Hn).
  rewrite Nat.max_0_l, Nat.min_0_l, Nat.sub_0_r. simpl.
  destruct (Nat.le_ge_cases (Z.to_nat n) (length s)) as [Hle|Hge].
  - by rewrite Nat.min_l.
  - rewrite Nat.min_r by done.
    rewrite (firstn_all2 (n := Z.to_nat n)) by done.
    by rewrite firstn_all.
Qed.

Lemma length_lit_ellipsis : length ellipsis = 3.
Proof. reflexivity. Qed.

(** A match at the head of the scan is replaced and the scan resumes
    behind it; the replacement is not scanned. *)
Lemma replaceFrom_skip (pat rep : list N) (k : nat) (s : list N) :
  replaceFrom pat rep k s = replaceFrom pat rep 0 (skipn k s).
Proof.
  revert s; induction k as [|k IH]; intros s; [done|].
  destruct s as [|c s]; [done|]. simpl. apply IH.
Qed.

Lemma replaceAll_match (pat rep s : list N) :
  pat <> [] ->
  replaceAll pat rep (pat ++ s) = rep ++ replaceAll pat rep s.
Proof.
  intros Hpat. unfold replaceAll.
  destruct pat as [|a pat]; [done|].
  change ((a :: pat) ++ s) with (a :: (pat ++ s)).
  cbn [replaceFrom].
  change (a :: pat ++ s) with ((a :: pat) ++ s).
  rewrite startsWith_app. f_equal.
  rewrite replaceFrom_skip. simpl. rewrite Nat.sub_0_r.
  by rewrite skipn_app, skipn_all, Nat.sub_diag.
Qed.

Lemma replaceAll_other (pat rep : list N) (c : N) (s : list N) :
  startsWith (c :: s) pat = false ->
  replaceAll pat rep (c :: s) = c :: replaceAll pat rep s.
Proof. intros H. unfold replaceAll. cbn [replaceFrom]. by rewrite H. Qed.

(** ** The embedding on the repository's own tests *)

Example test_buildMenuLabel_short :
  buildMenuLabel (lit "Explain {{selection}} in context") (lit "hello") 50
  = lit "Explain hello in context".
Proof. reflexivity. Qed.

Example test_buildMenuLabel_long_selection :
  buildMenuLabel (lit "Explain {{selection}}")
    (lit "this is a very long selection that exceeds the limit") 50
  = lit "Explain this is a very long sele...".
Proof. reflexivity. Qed.

Example test_buildMenuLabel_context :
  buildMenuLabel (lit "{{selection}} in {{context}}") (lit "test") 50
  = lit "test in ...".
Proof. reflexivity. Qed.

Example test_buildMenuLabel_truncated :
  buildMenuLabel
    (lit "This is a very long template with {{selection}} and more text here")
    (lit "word") 30
  = lit "This is a very long templat...".
Proof. reflexivity. Qed.

Example test_sanitizeFileName_forbidden :
  sanitizeFileName
    (lit "test:*?" ++ [34%N] ++ lit "<>|/" ++ [92%N] ++ lit "name")
  = lit "testname".
Proof. reflexivity. Qed.

Example test_deriveOllamaBaseUrl :
  deriveOllamaBaseUrl (lit "http://localhost:11434/v1/")
    = lit "http://localhost:11434"
  /\ deriveOllamaBaseUrl (lit "http://localhost:11434/v1")
     = lit "http://localhost:11434"
  /\ deriveOllamaBaseUrl [] = lit "http://localhost:11434"
  /\ deriveOllamaBaseUrl (lit "http://myhost:1234") = lit "http://myhost:1234".
Proof. repeat split; reflexivity. Qed.

Example test_getProviderConfig_openai :
  getProviderConfig DEFAULT_SETTINGS
  = {| ProviderConfig.baseURL := lit "https://api.openai.com/v1/";
       ProviderConfig.apiKey := lit "-";
       ProviderConfig.model := lit "gpt-4o-mini";
       ProviderConfig.defaultHeaders := None |}.
Proof. reflexivity. Qed.

Example test_parseOpenRouterModels_sorted :
  parseOpenRouterModels ordinalCompare
    (VObj [(lit "data",
            VArr [VObj [(lit "id", VStr (lit "z-model"));
                        (lit "name", VStr (lit "Z"))];
                  VObj [(lit "id", VStr (lit "a-model"));
                        (lit "name", VStr (lit "A"))]])])
  = Ok [VObj [(lit "id", VStr (lit "a-model"));
              (lit "name", VStr (lit "A"));
              (lit "pricing", VUndefined)];
        VObj [(lit "id", VStr (lit "z-model"));
              (lit "name", VStr (lit "Z"));
              (lit "pricing", VUndefined)]].
Proof. reflexivity. Qed.

Example test_parseOllamaModels_sorted :
  parseOllamaModels ordinalCompare
    (VObj [(lit "models",
            VArr [VObj [(lit "name", VStr (lit "zebra"))];
                  VObj [(lit "name", VStr (lit "alpha"))]])])
  = Ok [VObj [(lit "id", VStr (lit "alpha"))];
        VObj [(lit "id", VStr (lit "zebra"))]].
Proof. reflexivity. Qed.

Example test_filterOpenAIModels_excludes :
  List.map ModelInfo.id
    (filterOpenAIModels ordinalCompare
       [ {| raw_id := lit "gpt-4o" |}; {| raw_id := lit "dall-e-3" |};
         {| raw_id := lit "tts-1" |}; {| raw_id := lit "whisper-1" |};
         {| raw_id := lit "text-embedding-ada-002" |};
         {| raw_id := lit "embedding-v1" |};
         {| raw_id := lit "babbage-002" |};
         {| raw_id := lit "davinci-002" |} ])
  = [lit "gpt-4o"].
Proof. reflexivity. Qed.

(** ** C3: the menu label *)

Lemma buildMenuLabel_stages (template selection : list N) (maxLength : nat) :
  buildMenuLabel template selection (Z.of_nat maxLength)
  = if (maxLength <? length (spec_expandLabel template selection))%nat
    then firstn (maxLength - 3) (spec_expandLabel template selection)
           ++ ellipsis
    else spec_expandLabel template selection.
Proof.
  unfold buildMenuLabel, spec_expandLabel, spec_cutSelection.
  rewrite (substring_prefix selection 24) by lia.
  change (Z.to_nat 24) with 24.
  replace (24 <? Z.of_nat (length selection))%Z
    with (24 <? length selection)%nat
    by (destruct (Nat.ltb_spec 24 (length selection));
        destruct (Z.ltb_spec 24 (Z.of_nat (length selection))); lia).
  set (label := replaceAll ph_context ellipsis _).
  replace (Z.of_nat maxLength <? Z.of_nat (length label))%Z
    with (maxLength <? length label)%nat
    by (destruct (Nat.ltb_spec maxLength (length label));
        destruct (Z.ltb_spec (Z.of_nat maxLength) (Z.of_nat (length label)));
        lia).
  destruct (maxLength <? length label)%nat eqn:Hlong; [|done].
  f_equal. unfold substring. rewrite clamp_zero.
  apply Nat.ltb_lt in Hlong.
  unfold clamp.
  rewrite Nat.max_0_l, Nat.min_0_l, Nat.sub_0_r. simpl. f_equal. lia.
Qed.

(** C3.  [buildMenuLabel template selection 30] is the output truncation
    (to 27 code units and the marker) of the template expanded with the
    input-truncated selection (24 code units and the marker) and with
    the context placeholder collapsed to the marker; it has at most 30
    code units; when the expanded label was over-long the result has
    exactly 30 code units and ends in the marker, otherwise it is the
    expanded label; and a selection that was cut ends in the marker. *)
Theorem buildMenuLabel_30 (template selection : list N) :
  buildMenuLabel template selection 30
    = spec_hardTruncate 30 (spec_expandLabel template selection)
  /\ length (buildMenuLabel template selection 30) <= 30
  /\ (30 < length (spec_expandLabel template selection) ->
      endsWith (buildMenuLabel template selection 30) ellipsis = true
      /\ length (buildMenuLabel template selection 30) = 30
      /\ firstn 27 (buildMenuLabel template selection 30)
         = firstn 27 (spec_expandLabel template selection))
  /\ (length (spec_expandLabel template selection) <= 30 ->
      buildMenuLabel template selection 30
        = spec_expandLabel template selection)
  /\ (24 < length selection ->
      endsWith (spec_cutSelection selection) ellipsis = true
      /\ length (spec_cutSelection selection) = 27)
  /\ (length selection <= 24 -> spec_cutSelection selection = selection).
Proof.
  pose proof (buildMenuLabel_stages template selection 30) as E.
  change (Z.of_nat 30) with 30%Z in E.
  set (label := spec_expandLabel template selection) in *.
  assert (Hcut : forall l : list N, 27 <= length l ->
            length (firstn 27 l ++ ellipsis) = 30).
  { intros l Hl. rewrite length_app, length_firstn, length_lit_ellipsis. lia. }
  repeat split.
  - rewrite E. reflexivity.
  - rewrite E. destruct (Nat.ltb_spec 30 (length label)); [|lia].
    change (30 - 3) with 27. rewrite Hcut; lia.
  - rewrite E. apply Nat.ltb_lt in H. rewrite H. apply endsWith_app.
  - rewrite E. pose proof H as H'. apply Nat.ltb_lt in H'. rewrite H'.
    change (30 - 3) with 27. apply Hcut. lia.
  - rewrite E. pose proof H as H'. apply Nat.ltb_lt in H'. rewrite H'.
    change (30 - 3) with 27.
    rewrite firstn_app, length_firstn.
    replace (27 - Nat.min 27 (length label)) with 0 by lia.
    simpl. rewrite app_nil_r. rewrite firstn_firstn. reflexivity.
  - intros H. rewrite E.
    destruct (Nat.ltb_spec 30 (length label)); [lia|done].
  - unfold spec_cutSelection. apply Nat.ltb_lt in H. rewrite H.
    apply endsWith_app.
  - unfold spec_cutSelection. pose proof H as H'.
    apply Nat.ltb_lt in H'. rewrite H'.
    rewrite length_app, length_firstn, length_lit_ellipsis. lia.
  - intros H. unfold spec_cutSelection.
    destruct (Nat.ltb_spec 24 (length selection)); [lia|done].
Qed.

(** ** C1: the prompt *)

(** The two scans of [buildPrompt] agree with the single scan on the
    repository's own examples. *)
Example buildPrompt_both :
  buildPrompt (lit "Explain {{selection}} in {{context}}") (lit "foo")
    (lit "bar")
  = lit "Explain foo in bar"
  /\ spec_substitute (lit "Explain {{selection}} in {{context}}") (lit "foo")
       (lit "bar")
     = lit "Explain foo in bar".
Proof. split; reflexivity. Qed.

Example buildPrompt_twice :
  buildPrompt (lit "{{selection}} and {{selection}}") (lit "X") (lit "Y")
  = lit "X and X".
Proof. reflexivity. Qed.

(** Placeholders that the second scan cannot see stay as they are: a
    selection placeholder inside the selection or the context, and a
    context placeholder inside the context. *)
Example buildPrompt_keeps_selection_shape :
  buildPrompt ph_selection ph_selection (lit "c") = ph_selection
  /\ buildPrompt ph_context (lit "s") ph_selection = ph_selection
  /\ buildPrompt ph_context (lit "s") ph_context = ph_context.
Proof. repeat split; reflexivity. Qed.

(** C1, at the input where the code departs from it.  The template is the
    selection placeholder alone and the selected text is the eleven code
    units of the context placeholder: the second scan of [buildPrompt]
    reads the inserted selection and replaces it by the context, whatever
    the context is, where a single scan returns the selection
    unchanged. *)
Theorem buildPrompt_rescans_selection (context : list N) :
  buildPrompt ph_selection ph_context context = context
  /\ spec_substitute ph_selection ph_context context = ph_context
  /\ buildPrompt (lit "{{selection}}") (lit "{{context}}") (lit "X")
     = lit "X"
  /\ buildPrompt (lit "{{selection}}") (lit "{{context}}") (lit "X")
     <> lit "{{context}}".
Proof.
  repeat split.
  - unfold buildPrompt.
    replace (replaceAll ph_selection ph_context ph_selection)
      with (ph_context ++ []) by reflexivity.
    rewrite replaceAll_match by discriminate.
    apply app_nil_r.
  - discriminate.
Qed.

(** The same second scan completes a context placeholder that the
    template only holds in two halves around the selection
    placeholder. *)
Example buildPrompt_rescans_template :
  buildPrompt (lit "{{con{{selection}}text}}") [] (lit "X") = lit "X".
Proof. reflexivity. Qed.

(** ** C6: file names *)

Lemma Forall_trimStart (P : N -> Prop) (s : list N) :
  Forall P s -> Forall P (trimStart s).
Proof.
  induction 1 as [|c s Hc Hs IH]; simpl; [constructor|].
  destruct (isWhiteSpace c); [done|by constructor].
Qed.

Lemma Forall_trim (P : N -> Prop) (s : list N) :
  Forall P s -> Forall P (trim s).
Proof.
  intros H. unfold trim, trimEnd.
  apply Forall_rev, Forall_trimStart, Forall_rev, Forall_trimStart, H.
Qed.

Lemma length_trimStart (s : list N) : length (trimStart s) <= length s.
Proof.
  induction s as [|c s IH]; simpl; [done|].
  destruct (isWhiteSpace c); simpl; lia.
Qed.

Lemma length_trim (s : list N) : length (trim s) <= length s.
Proof.
  unfold trim, trimEnd. rewrite length_rev.
  etransitivity; [apply length_trimStart|]. rewrite length_rev.
  apply length_trimStart.
Qed.

Lemma trimStart_head (s : list N) (c : N) (r : list N) :
  trimStart s = c :: r -> isWhiteSpace c = false.
Proof.
  induction s as [|d s IH]; simpl; [discriminate|].
  destruct (isWhiteSpace d) eqn:Hd; [done|].
  intros [= <- <-]. exact Hd.
Qed.

Lemma trimStart_id (c : N) (s : list N) :
  isWhiteSpace c = false -> trimStart (c :: s) = c :: s.
Proof. intros H. simpl. by rewrite H. Qed.

Lemma trimStart_snoc (s : list N) (c : N) :
  isWhiteSpace c = false -> trimStart (s ++ [c]) = trimStart s ++ [c].
Proof.
  intros Hc. induction s as [|d s IH]; simpl.
  - by rewrite Hc.
  - destruct (isWhiteSpace d); [exact IH|done].
Qed.

Lemma trimEnd_cons (c : N) (s : list N) :
  isWhiteSpace c = false -> trimEnd (c :: s) = c :: trimEnd s.
Proof.
  intros Hc. unfold trimEnd. simpl.
  rewrite trimStart_snoc by done.
  by rewrite rev_app_distr.
Qed.

Lemma trimEnd_snoc (s : list N) (c : N) :
  isWhiteSpace c = false -> trimEnd (s ++ [c]) = s ++ [c].
Proof.
  intros Hc. unfold trimEnd. rewrite rev_app_distr. simpl.
  rewrite Hc. simpl. by rewrite rev_involutive.
Qed.

Lemma trim_head (s : list N) (c : N) (r : list N) :
  trim s = c :: r -> isWhiteSpace c = false.
Proof.
  unfold trim. destruct (trimStart s) as [|d t] eqn:Ht.
  - discriminate.
  - pose proof (trimStart_head _ _ _ Ht) as Hd.
    rewrite trimEnd_cons by done. by intros [= <- _].
Qed.

Lemma trim_last (s r : list N) (c : N) :
  trim s = r ++ [c] -> isWhiteSpace c = false.
Proof.
  unfold trim, trimEnd. intros H.
  apply (f_equal (@rev N)) in H.
  rewrite rev_involutive, rev_app_distr in H. simpl in H.
  by apply trimStart_head in H.
Qed.

Lemma filter_unforbidden (s : list N) :
  Forall (fun c => forbidden c = false) s ->
  List.filter (fun c => negb (forbidden c)) s = s.
Proof.
  induction 1 as [|c s Hc Hs IH]; simpl; [done|].
  by rewrite Hc, IH.
Qed.

Lemma Forall_filter_unforbidden (s : list N) :
  Forall (fun c => forbidden c = false)
    (List.filter (fun c => negb (forbidden c)) s).
Proof.
  apply List.Forall_forall. intros c Hc.
  apply List.filter_In in Hc as [_ Hc].
  by destruct (forbidden c).
Qed.

Lemma sanitizeFileName_unfold (name : list N) :
  sanitizeFileName name
  = match
      trim (firstn 100 (List.filter (fun c => negb (forbidden c)) name))
    with
    | [] => fallbackLabel
    | c :: r => c :: r
    end.
Proof.
  unfold sanitizeFileName. rewrite substring_prefix by lia.
  change (Z.to_nat 100) with 100.
  by destruct (trim _).
Qed.

(** What [sanitizeFileName] returns for every name: the result holds no
    forbidden code unit, has between 1 and 100 code units, neither starts
    nor ends with white space, and is the trimmed 100-unit prefix of the
    stripped name unless that is empty, when it is the fallback label. *)
Lemma sanitizeFileName_shape (name : list N) :
  Forall (fun c => forbidden c = false) (sanitizeFileName name)
  /\ 0 < length (sanitizeFileName name) <= 100
  /\ (forall c r, sanitizeFileName name = c :: r -> isWhiteSpace c = false)
  /\ (forall r c, sanitizeFileName name = r ++ [c] -> isWhiteSpace c = false)
  /\ (trim (firstn 100 (List.filter (fun c => negb (forbidden c)) name)) = []
      -> sanitizeFileName name = fallbackLabel)
  /\ (trim (firstn 100 (List.filter (fun c => negb (forbidden c)) name)) <> []
      -> sanitizeFileName name
         = trim (firstn 100
                   (List.filter (fun c => negb (forbidden c)) name))).
Proof.
  rewrite sanitizeFileName_unfold.
  set (stripped := List.filter _ name).
  assert (HF : Forall (fun c => forbidden c = false)
                 (trim (firstn 100 stripped))).
  { apply Forall_trim, Forall_take, Forall_filter_unforbidden. }
  assert (HL : length (trim (firstn 100 stripped)) <= 100).
  { etransitivity; [apply length_trim|]. rewrite length_firstn. lia. }
  destruct (trim (firstn 100 stripped)) as [|c r] eqn:Ht.
  - repeat split; try done.
    + unfold fallbackLabel.
      apply List.Forall_forall. intros c Hc. simpl in Hc.
      repeat (destruct Hc as [<-|Hc]; [reflexivity|]). destruct Hc.
    + unfold fallbackLabel; simpl; lia.
    + unfold fallbackLabel; simpl; lia.
    + intros c r [= <- _]. reflexivity.
    + intros r c H.
      assert (Hlast : List.last fallbackLabel 0%N = c)
        by (rewrite H; apply List.last_last).
      rewrite <- Hlast. reflexivity.
  - repeat split; try done.
    + simpl; lia.
    + intros c' r' [= <- _]. eapply trim_head, Ht.
    + intros r' c' H. eapply trim_last. rewrite Ht. exact H.
Qed.

Lemma trim_id (s : list N) (a b : N) :
  s !! 0 = Some a -> s !! (length s - 1) = Some b ->
  isWhiteSpace a = false -> isWhiteSpace b = false ->
  trim s = s.
Proof.
  intros Ha Hb Wa Wb. unfold trim.
  destruct s as [|a' s]; [done|]. simpl in Ha. injection Ha as ->.
  rewrite trimStart_id by done.
  assert (E : a :: s = firstn (length (a :: s) - 1) (a :: s) ++ [b]).
  { rewrite <- take_S_r by done.
    rewrite firstn_all2; [done|simpl; lia]. }
  rewrite E. by apply trimEnd_snoc.
Qed.

(** C6, as amended.  For every name, [sanitizeFileName] returns the name
    stripped of the nine forbidden code units (nothing put in their
    place), cut to its first 100 code units and trimmed of surrounding
    white space, or the fallback label when that is empty; so the result
    holds no forbidden code unit, has between 1 and 100 code units and
    neither starts nor ends with white space.  The name [":::"] and the
    empty name give the fallback label.  A name of 200 code units that
    holds no forbidden code unit and whose first and hundredth code
    units are not white space gives its first 100 code units, a result
    of exactly 100. *)
Theorem sanitizeFileName_amended (name : list N) :
  (Forall (fun c => forbidden c = false) (sanitizeFileName name)
   /\ 0 < length (sanitizeFileName name) <= 100
   /\ (forall c r, sanitizeFileName name = c :: r -> isWhiteSpace c = false)
   /\ (forall r c, sanitizeFileName name = r ++ [c] ->
       isWhiteSpace c = false)
   /\ (trim (firstn 100 (List.filter (fun c => negb (forbidden c)) name))
         = [] ->
       sanitizeFileName name = fallbackLabel)
   /\ (trim (firstn 100 (List.filter (fun c => negb (forbidden c)) name))
         <> [] ->
       sanitizeFileName name
       = trim (firstn 100
                 (List.filter (fun c => negb (forbidden c)) name))))
  /\ sanitizeFileName (lit ":::") = lit "AI Explanation"
  /\ sanitizeFileName [] = lit "AI Explanation"
  /\ (length name = 200 ->
      Forall (fun c => forbidden c = false) name ->
      isWhiteSpace (nth 0 name 0%N) = false ->
      isWhiteSpace (nth 99 name 0%N) = false ->
      sanitizeFileName name = firstn 100 name
      /\ length (sanitizeFileName name) = 100).
Proof.
  split; [apply sanitizeFileName_shape|].
  split; [reflexivity|]. split; [reflexivity|].
  intros Hlen Hclean W0 W99.
  assert (E : sanitizeFileName name = firstn 100 name).
  { rewrite sanitizeFileName_unfold, filter_unforbidden by done.
    assert (Ht : trim (firstn 100 name) = firstn 100 name).
    { destruct (nth_lookup_or_length name 0 0%N) as [H0|]; [|lia].
      destruct (nth_lookup_or_length name 99 0%N) as [H99|]; [|lia].
      eapply trim_id; [| |exact W0|exact W99].
      - rewrite lookup_take_lt by lia. exact H0.
      - rewrite length_firstn, Hlen. change (Nat.min 100 200 - 1) with 99.
        rewrite lookup_take_lt by lia. exact H99. }
    rewrite Ht. destruct (firstn 100 name) eqn:Hd; [|done].
    apply (f_equal (@length N)) in Hd.
    rewrite length_firstn, Hlen in Hd. discriminate Hd. }
  split; [exact E|].
  rewrite E, length_firstn. lia.
Qed.

Lemma sanitizeFileName_amended_witness :
  sanitizeFileName (repeat 97%N 200) = repeat 97%N 100
  /\ length (sanitizeFileName (repeat 97%N 200)) = 100.
Proof.
  apply (sanitizeFileName_amended (repeat 97%N 200)).
  - reflexivity.
  - apply List.Forall_forall. intros c Hc.
    apply repeat_spec in Hc. subst c. reflexivity.
  - reflexivity.
  - reflexivity.
Defined.

(** C6, as stated, fails: two hundred colons are a 200-unit name whose
    result is the fallback label, of 14 code units. *)
Lemma sanitizeFileName_200_not_100 :
  ~ (forall name : list N,
       length name = 200 -> length (sanitizeFileName name) = 100).
Proof.
  intros H. specialize (H (repeat 58%N 200) eq_refl).
  vm_compute in H. discriminate H.
Qed.

(** ** C2 and C9: provider configuration *)

Lemma size_positive (m : gmap (list N) (list N)) :
  (0 <? size m)%nat = bool_decide (m <> ∅).
Proof.
  destruct (decide (m = ∅)) as [->|Hne].
  - by rewrite map_size_empty.
  - rewrite bool_decide_true by done.
    apply Nat.ltb_lt. apply map_size_non_empty_iff in Hne. lia.
Qed.

Lemma nonEmpty_true (s : list N) : nonEmpty s = true <-> s <> [].
Proof. destruct s; simpl; split; congruence. Qed.

Lemma nonEmpty_false (s : list N) : nonEmpty s = false <-> s = [].
Proof. destruct s; simpl; split; congruence. Qed.

(** Goals about the lookups of a header mapping built by inserts. *)
Ltac headers :=
  repeat split; intros;
  repeat match goal with
         | H : is_Some _ |- _ => destruct H as [? H]
         end;
  simplify_map_eq; try done; try (by eexists).

Lemma header_names_differ : lit "HTTP-Referer" <> lit "X-Title".
Proof. discriminate. Qed.

(** C2.  With the provider [openrouter] the base URL is the OpenRouter
    root whatever [baseURL] holds; the key and the model come from the
    OpenRouter fields (the key through the placeholder rule of C9); the
    headers are absent when referer and title are both empty, and are
    otherwise a mapping that binds [HTTP-Referer] to the referer exactly
    when it is non-empty, [X-Title] to the title exactly when it is
    non-empty, and nothing else. *)
Theorem getProviderConfig_openrouter (settings : Settings.t) :
  Settings.dropdownValue settings = lit "openrouter" ->
  ProviderConfig.baseURL (getProviderConfig settings)
    = lit "https://openrouter.ai/api/v1"
  /\ ProviderConfig.apiKey (getProviderConfig settings)
     = (if nonEmpty (Settings.openRouterApiKey settings)
        then Settings.openRouterApiKey settings else lit "-")
  /\ ProviderConfig.model (getProviderConfig settings)
     = Settings.openRouterModel settings
  /\ (Settings.openRouterReferer settings = []
      /\ Settings.openRouterTitle settings = [] <->
      ProviderConfig.defaultHeaders (getProviderConfig settings) = None)
  /\ (forall h,
        ProviderConfig.defaultHeaders (getProviderConfig settings) = Some h ->
        (Settings.openRouterReferer settings <> [] <->
         is_Some (h !! lit "HTTP-Referer"))
        /\ (Settings.openRouterTitle settings <> [] <->
            is_Some (h !! lit "X-Title"))
        /\ (forall v, h !! lit "HTTP-Referer" = Some v ->
            v = Settings.openRouterReferer settings)
        /\ (forall v, h !! lit "X-Title" = Some v ->
            v = Settings.openRouterTitle settings)
        /\ (forall k, k <> lit "HTTP-Referer" -> k <> lit "X-Title" ->
            h !! k = None)).
Proof.
  intros Hprov. unfold getProviderConfig.
  rewrite (bool_decide_true _ Hprov). cbn [andb ProviderConfig.baseURL
    ProviderConfig.apiKey ProviderConfig.model ProviderConfig.defaultHeaders].
  pose proof header_names_differ as Hne.
  split; [done|]. split.
  { destruct (Settings.openRouterApiKey settings); done. }
  split; [done|].
  rewrite size_positive.
  destruct (Settings.openRouterReferer settings) as [|r rs] eqn:Href;
    destruct (Settings.openRouterTitle settings) as [|t ts] eqn:Htit;
    cbn [nonEmpty].
  - rewrite bool_decide_false by (intros H; by apply H).
    split; [done|]. intros h [=].
  - rewrite bool_decide_true by apply insert_non_empty.
    split; [split; [intros [_ [=]]|intros [=]]|].
    intros h [= <-]. headers.
  - rewrite bool_decide_true by apply insert_non_empty.
    split; [split; [intros [[=] _]|intros [=]]|].
    intros h [= <-]. headers.
  - rewrite bool_decide_true by apply insert_non_empty.
    split; [split; [intros [[=] _]|intros [=]]|].
    intros h [= <-]. headers.
Qed.

Lemma getProviderConfig_openrouter_witness :
  ProviderConfig.baseURL (getProviderConfig refererOnlySettings)
    = lit "https://openrouter.ai/api/v1"
  /\ ProviderConfig.defaultHeaders (getProviderConfig refererOnlySettings)
     = Some {[ lit "HTTP-Referer" := lit "https://ref.com" ]}.
Proof.
  split.
  - apply (getProviderConfig_openrouter refererOnlySettings). reflexivity.
  - reflexivity.
Defined.

(** C9.  For every settings value the key of the result is not empty: it
    is the placeholder ["-"] when the resolved key is empty and the
    resolved key itself otherwise. *)
Theorem getProviderConfig_apiKey (settings : Settings.t) :
  ProviderConfig.apiKey (getProviderConfig settings) <> []
  /\ (resolvedKey settings = [] ->
      ProviderConfig.apiKey (getProviderConfig settings) = lit "-")
  /\ (resolvedKey settings <> [] ->
      ProviderConfig.apiKey (getProviderConfig settings)
        = resolvedKey settings).
Proof.
  unfold getProviderConfig, resolvedKey.
  cbn [ProviderConfig.apiKey].
  destruct (bool_decide (Settings.dropdownValue settings = lit "openrouter")).
  - destruct (Settings.openRouterApiKey settings) as [|c k];
      repeat split; done.
  - destruct (Settings.apiKey settings) as [|c k]; repeat split; done.
Qed.

Lemma getProviderConfig_apiKey_witness :
  ProviderConfig.apiKey (getProviderConfig DEFAULT_SETTINGS) = lit "-"
  /\ ProviderConfig.apiKey (getProviderConfig refererOnlySettings)
     = lit "key".
Proof.
  split.
  - apply (getProviderConfig_apiKey DEFAULT_SETTINGS). reflexivity.
  - apply (getProviderConfig_apiKey refererOnlySettings). discriminate.
Defined.

(** ** C5: the parsers on a payload without its top-level field *)

Section Parsers.

Variable localeCompare : list N -> list N -> Z.

Lemma lookupProp_absent (props : list (list N * value)) (k : list N) :
  existsb (fun kv => bool_decide (fst kv = k)) props = false ->
  lookupProp props k = VUndefined.
Proof.
  induction props as [|[k' v] props IH]; simpl; [done|].
  destruct (bool_decide (k' = k)); simpl; [discriminate|exact IH].
Qed.

Lemma fieldOrEmpty_missing (data : value) (k : list N) :
  hasField data k = false -> fieldOrEmpty data k = Ok (VArr []).
Proof.
  intros H. unfold fieldOrEmpty.
  destruct data as [| |b|z|s|items|props]; simpl in *; try done.
  - by destruct b.
  - destruct (z =? 0)%Z eqn:E; simpl; by rewrite ?E.
  - by destruct s.
  - by rewrite lookupProp_absent.
Qed.

(** C5.  A payload without a top-level [data] field (whatever else it
    is: [undefined], [null], a primitive, an array, an object with other
    fields) makes [parseOpenRouterModels] return the empty list, and one
    without a top-level [models] field makes [parseOllamaModels] return
    the empty list; nothing is raised.  So do the empty object for both
    parsers and the empty array for [filterOpenAIModels]. *)
Theorem parsers_missing_field (data : value) :
  (hasField data (lit "data") = false ->
   parseOpenRouterModels localeCompare data = Ok [])
  /\ (hasField data (lit "models") = false ->
      parseOllamaModels localeCompare data = Ok [])
  /\ parseOpenRouterModels localeCompare (VObj []) = Ok []
  /\ parseOllamaModels localeCompare (VObj []) = Ok []
  /\ filterOpenAIModels localeCompare [] = [].
Proof.
  repeat split; try reflexivity.
  - intros H. unfold parseOpenRouterModels.
    by rewrite fieldOrEmpty_missing.
  - intros H. unfold parseOllamaModels.
    by rewrite fieldOrEmpty_missing.
Qed.

(** The exceptions of the model are reachable: an entry that is [null]
    makes the parser raise, so the result above is not an artefact of a
    model that cannot fail. *)
Example parseOpenRouterModels_null_entry :
  parseOpenRouterModels localeCompare (VObj [(lit "data", VArr [VNull])])
  = Throw TypeError.
Proof. reflexivity. Qed.

Example parseOllamaModels_not_an_array :
  parseOllamaModels localeCompare (VObj [(lit "models", VNum 5)])
  = Throw TypeError.
Proof. reflexivity. Qed.

End Parsers.

Lemma parsers_missing_field_witness :
  parseOpenRouterModels ordinalCompare
    (VObj [(lit "models", VArr [VObj [(lit "name", VStr (lit "llama3"))]])])
  = Ok []
  /\ parseOllamaModels ordinalCompare (VStr (lit "not json")) = Ok [].
Proof.
  split.
  - refine (proj1 (parsers_missing_field ordinalCompare _) _).
    reflexivity.
  - refine (proj1 (proj2 (parsers_missing_field ordinalCompare _)) _).
    reflexivity.
Defined.

(** ** C4: the OpenAI filter *)

Lemma ordinalCompare_total (a b : list N) :
  (ordinalCompare a b <= 0 \/ ordinalCompare b a <= 0)%Z.
Proof.
  revert b; induction a as [|x a IH]; intros [|y b]; simpl; try lia.
  destruct (N.ltb_spec x y), (N.ltb_spec y x); try lia. apply IH.
Qed.

Lemma ordinalCompare_range (a b : list N) :
  (-1 <= ordinalCompare a b <= 1)%Z.
Proof.
  revert b; induction a as [|x a IH]; intros [|y b]; simpl; try lia.
  destruct (x <? y)%N; [lia|]. destruct (y <? x)%N; [lia|]. apply IH.
Qed.

Lemma ordinalCompare_trans (a b c : list N) :
  (ordinalCompare a b <= 0 -> ordinalCompare b c <= 0 ->
   ordinalCompare a c <= 0)%Z.
Proof.
  revert b c; induction a as [|x a IH]; intros [|y b] [|z c]; simpl;
    try lia.
  destruct (N.ltb_spec x y), (N.ltb_spec y x), (N.ltb_spec y z),
    (N.ltb_spec z y), (N.ltb_spec x z), (N.ltb_spec z x);
    try lia; apply IH.
Qed.

Section OpenAIFilter.

Variable localeCompare : list N -> list N -> Z.

(** The comparator is consistent, as [Array.prototype.sort] requires of
    it: it orders every pair, transitively. *)
Hypothesis localeCompare_total :
  forall a b, (localeCompare a b <= 0 \/ localeCompare b a <= 0)%Z.
Hypothesis localeCompare_trans :
  forall a b c,
    (localeCompare a b <= 0 -> localeCompare b c <= 0 ->
     localeCompare a c <= 0)%Z.

Section Sorting.

Context {A : Type} (key : A -> list N).

Lemma In_insertBy (x y : A) (l : list A) :
  In y (insertBy localeCompare key x l) <-> y = x \/ In y l.
Proof.
  induction l as [|z l IH]; simpl; [intuition|].
  destruct (localeCompare (key x) (key z) <=? 0)%Z; simpl;
    [intuition|]. rewrite IH. intuition.
Qed.

Lemma In_sortBy (y : A) (l : list A) :
  In y (sortBy localeCompare key l) <-> In y l.
Proof.
  induction l as [|x l IH]; simpl; [done|].
  rewrite In_insertBy, IH. intuition.
Qed.

Lemma insertBy_sorted (x : A) (l : list A) :
  StronglySorted (ascending localeCompare key) l ->
  StronglySorted (ascending localeCompare key) (insertBy localeCompare key x l).
Proof.
  induction 1 as [|z l Hl IH Hz]; simpl.
  - repeat constructor.
  - destruct (Z.leb_spec (localeCompare (key x) (key z)) 0) as [Hxz|Hzx].
    + constructor; [by constructor|].
      constructor; [exact Hxz|].
      eapply Forall_impl; [exact Hz|].
      intros w Hw. eapply localeCompare_trans; [exact Hxz|exact Hw].
    + constructor; [exact IH|].
      apply List.Forall_forall. intros w Hw.
      apply In_insertBy in Hw as [->|Hw].
      * destruct (localeCompare_total (key x) (key z)); [lia|done].
      * rewrite List.Forall_forall in Hz. by apply Hz.
Qed.

Lemma sortBy_sorted (l : list A) :
  StronglySorted (ascending localeCompare key) (sortBy localeCompare key l).
Proof.
  induction l as [|x l IH]; simpl; [constructor|].
  by apply insertBy_sorted.
Qed.

Lemma sortBy_of_sorted (l : list A) :
  StronglySorted (ascending localeCompare key) l -> sortBy localeCompare key l = l.
Proof.
  induction 1 as [|x l Hl IH Hx]; simpl; [done|].
  rewrite IH. destruct l as [|y l]; simpl; [done|].
  inversion Hx as [|? ? Hxy _]; subst.
  unfold ascending in Hxy.
  by destruct (Z.leb_spec (localeCompare (key x) (key y)) 0); [|lia].
Qed.

End Sorting.

Lemma filterOpenAIModels_In (m : ModelInfo.t) (models : list RawModel) :
  In m (filterOpenAIModels localeCompare models) <->
  exists r, In r models /\ keepModel r = true /\ m = idOnly r.
Proof.
  unfold filterOpenAIModels. rewrite In_sortBy, in_map_iff.
  split.
  - intros (r & <- & Hr). apply List.filter_In in Hr as [Hr Hk]. eauto.
  - intros (r & Hr & Hk & ->). exists r. split; [done|].
    apply List.filter_In. eauto.
Qed.

Lemma filter_all {B : Type} (f : B -> bool) (l : list B) :
  (forall x, In x l -> f x = true) -> List.filter f l = l.
Proof.
  induction l as [|x l IH]; simpl; intros H; [done|].
  rewrite (H x) by auto. f_equal. apply IH. auto.
Qed.

Lemma map_fixed {B : Type} (f : B -> B) (l : list B) :
  (forall x, In x l -> f x = x) -> List.map f l = l.
Proof.
  induction l as [|x l IH]; simpl; intros H; [done|].
  rewrite (H x) by auto. f_equal. apply IH. auto.
Qed.

(** C4.  Filtering the result of [filterOpenAIModels], read again as
    [{ id }] records, returns that result; the result is in ascending
    order of id for [localeCompare]; every id of the result starts with
    an allowed prefix and with no denied prefix, so a model whose id
    starts with a denied prefix is left out whether or not it also starts
    with an allowed one; and a model whose id starts with an allowed
    prefix and no denied prefix is in the result. *)
Theorem filterOpenAIModels_idempotent_sorted (models : list RawModel) :
  filterOpenAIModels localeCompare
    (List.map asRawModel (filterOpenAIModels localeCompare models))
  = filterOpenAIModels localeCompare models
  /\ StronglySorted (ascending localeCompare ModelInfo.id)
       (filterOpenAIModels localeCompare models)
  /\ (forall m, In m (filterOpenAIModels localeCompare models) ->
      matchesChat (ModelInfo.id m) = true
      /\ excluded (ModelInfo.id m) = false)
  /\ (forall r, In r models -> excluded (raw_id r) = true ->
      ~ In (raw_id r)
          (List.map ModelInfo.id (filterOpenAIModels localeCompare models)))
  /\ (forall r, In r models ->
      matchesChat (raw_id r) = true -> excluded (raw_id r) = false ->
      In (idOnly r) (filterOpenAIModels localeCompare models)).
Proof.
  assert (Hsorted : StronglySorted (ascending localeCompare ModelInfo.id)
                      (filterOpenAIModels localeCompare models))
    by apply sortBy_sorted.
  assert (Hkept : forall m,
            In m (filterOpenAIModels localeCompare models) ->
            matchesChat (ModelInfo.id m) = true
            /\ excluded (ModelInfo.id m) = false).
  { intros m Hm. apply filterOpenAIModels_In in Hm as (r & _ & Hk & ->).
    unfold keepModel in Hk. apply andb_true_iff in Hk as [Hc He].
    simpl. split; [done|]. by destruct (excluded (raw_id r)). }
  split; [|split; [exact Hsorted|split; [exact Hkept|split]]].
  - set (out := filterOpenAIModels localeCompare models) in *.
    unfold filterOpenAIModels at 1.
    rewrite filter_all.
    + rewrite map_map, map_fixed; [by apply sortBy_of_sorted|].
      intros m Hm. apply filterOpenAIModels_In in Hm as (r & _ & _ & ->).
      reflexivity.
    + intros r Hr. apply in_map_iff in Hr as (m & <- & Hm).
      destruct (Hkept m Hm) as [Hc He].
      unfold keepModel, asRawModel. simpl. by rewrite Hc, He.
  - intros r _ He Hin. apply in_map_iff in Hin as (m & Hid & Hm).
    destruct (Hkept m Hm) as [_ He']. congruence.
  - intros r Hr Hc He. apply filterOpenAIModels_In.
    exists r. unfold keepModel. by rewrite Hc, He.
Qed.

End OpenAIFilter.

Lemma filterOpenAIModels_idempotent_sorted_witness :
  filterOpenAIModels ordinalCompare
    (List.map asRawModel (filterOpenAIModels ordinalCompare listingExample))
  = filterOpenAIModels ordinalCompare listingExample
  /\ List.map ModelInfo.id (filterOpenAIModels ordinalCompare listingExample)
     = [lit "chatgpt-4o-latest"; lit "gpt-3.5-turbo"; lit "gpt-4o";
        lit "o1-mini"].
Proof.
  split.
  - apply (filterOpenAIModels_idempotent_sorted ordinalCompare
             ordinalCompare_total ordinalCompare_trans listingExample).
  - reflexivity.
Defined.

(** No id starts with both an allowed and a denied prefix: the allowed
    prefixes begin with g, o or c, the denied ones with d, t, w, e or
    b. *)
Lemma allowed_not_denied (id : list N) :
  matchesChat id = true -> excluded id = false.
Proof.
  destruct id as [|c r]; [discriminate|].
  unfold matchesChat, excluded.
  set (allow := chatPrefixes). vm_compute in allow. subst allow.
  set (deny := excludePrefixes). vm_compute in deny. subst deny.
  cbn [existsb startsWith].
  destruct (N.eqb_spec 103 c) as [<-|]; [reflexivity|].
  destruct (N.eqb_spec 111 c) as [<-|]; [reflexivity|].
  destruct (N.eqb_spec 99 c) as [<-|]; [reflexivity|].
  discriminate.
Qed.

(** ** C10: the model cache *)

Section Cache.

Variable localeCompare : list N -> list N -> Z.




(** A picker that opens on a provider absent from the cache and whose
    fetch succeeds stores the fetched list. *)
Lemma pickerOnOpen_stores (requestUrl : Request -> result value)
    (modelCache : gmap (list N) (list value)) (provider : list N)
    (apiKey baseURL : option (list N)) (l : list value)
    (sent : list Request) :
  fetchModelsForProvider localeCompare requestUrl modelCache provider
    apiKey baseURL = (Ok l, sent) ->
  fst (pickerOnOpen localeCompare requestUrl modelCache provider
         apiKey baseURL) !! provider = Some l.
Proof.
  intros H. unfold pickerOnOpen. rewrite H. simpl. apply lookup_insert_eq.
Qed.


End Cache.


(** Without the cache entry the same call sends a request and returns
    what the network lists. *)
Example fetch_uncached :
  fetchModelsForProvider ordinalCompare
    (answerWith
       (VObj [(lit "data", VArr [VObj [(lit "id", VStr (lit "gpt-4o"))]])]))
    ∅ (lit "openai") (Some (lit "sk-other")) None
  = (Ok [VObj [(lit "id", VStr (lit "gpt-4o"))]],
     [{| url := lit "https://api.openai.com/v1/models";
         authorization := Some (lit "Bearer sk-other") |}]).
Proof. reflexivity. Qed.

(** ** C7: the numbered copy *)

Section NumberedCopy.

Variable exists_ : list N -> bool.
Variables parentPath fileName : list N.

(** From a path that exists and a counter not above the smallest unused
    number [k], the loop stops at the copy numbered [k]. *)
Lemma probe_reaches (k : N) (n : nat) :
  (forall j, (1 <= j < k)%N ->
     exists_ (numberedPath parentPath fileName j) = true) ->
  exists_ (numberedPath parentPath fileName k) = false ->
  forall (counter : N) (finalPath : list N) (fuel : nat),
    (1 <= counter <= k)%N ->
    n = N.to_nat (k - counter) ->
    exists_ finalPath = true ->
    n + 2 <= fuel ->
    probe exists_ parentPath fileName fuel finalPath counter
    = Some (numberedPath parentPath fileName k).
Proof.
  intros Hused Hfree.
  induction n as [|n IH]; intros counter finalPath fuel Hc Hn Hfp Hfuel.
  - assert (counter = k) as -> by lia.
    destruct fuel as [|[|fuel]]; [lia|lia|].
    simpl. by rewrite Hfp, Hfree.
  - destruct fuel as [|fuel]; [lia|].
    simpl. rewrite Hfp.
    apply IH; [lia|lia| |lia].
    apply Hused. lia.
Qed.

(** C7.  When the note exists, the copies numbered below [k] exist and
    the copy numbered [k] does not, the loop of [handleChoice("new")]
    ends, given the [k + 1] existence checks it needs, and the path it
    creates is the copy numbered [k]. *)
Theorem handleChoiceNew_smallest_unused (k : N) (fuel : nat) :
  exists_ (notePath parentPath fileName) = true ->
  (1 <= k)%N ->
  (forall j, (1 <= j < k)%N ->
     exists_ (numberedPath parentPath fileName j) = true) ->
  exists_ (numberedPath parentPath fileName k) = false ->
  N.to_nat k < fuel ->
  handleChoiceNew exists_ parentPath fileName fuel
  = Some (numberedPath parentPath fileName k).
Proof.
  intros Hnote Hk Hused Hfree Hfuel. unfold handleChoiceNew.
  eapply (probe_reaches k (N.to_nat (k - 1))); eauto; lia.
Qed.

(** The loop checks the note itself first: a note that does not exist
    is created under its own name. *)
Lemma handleChoiceNew_absent (fuel : nat) :
  exists_ (notePath parentPath fileName) = false ->
  handleChoiceNew exists_ parentPath fileName (S fuel)
  = Some (notePath parentPath fileName).
Proof. intros H. unfold handleChoiceNew. simpl. by rewrite H. Qed.

End NumberedCopy.

Lemma handleChoiceNew_smallest_unused_witness :
  handleChoiceNew vaultExample (lit "notes") (lit "Topic") 4
  = Some (lit "notes/Topic 3.md").
Proof.
  apply (handleChoiceNew_smallest_unused vaultExample (lit "notes")
           (lit "Topic") 3 4).
  - reflexivity.
  - lia.
  - intros j Hj.
    assert (j = 1 \/ j = 2)%N as [->| ->] by lia; reflexivity.
  - reflexivity.
  - simpl. lia.
Defined.

(** ** The numbered copy in a finite vault *)

Lemma digits_inj (d1 d2 : Decimal.uint) : digits d1 = digits d2 -> d1 = d2.
Proof.
  revert d2; induction d1; intros []; simpl; intros H;
    try discriminate H; try reflexivity.
  all: injection H as H; f_equal; apply IHd1, H.
Qed.

Lemma numberToString_inj (a b : N) :
  numberToString a = numberToString b -> a = b.
Proof.
  unfold numberToString. intros H. apply digits_inj in H.
  rewrite <- (DecimalN.Unsigned.of_to a), <- (DecimalN.Unsigned.of_to b).
  by rewrite H.
Qed.

Lemma numberedPath_inj (parentPath fileName : list N) (a b : N) :
  numberedPath parentPath fileName a = numberedPath parentPath fileName b ->
  a = b.
Proof.
  unfold numberedPath, notePath. intros H.
  apply numberToString_inj.
  assert (Hbase : fileName ++ lit " " ++ numberToString a
                  = fileName ++ lit " " ++ numberToString b).
  { destruct (nonEmpty parentPath).
    - apply (app_inv_head parentPath), (app_inv_head (lit "/")) in H.
      by apply app_inv_tail in H.
    - by apply app_inv_tail in H. }
  by apply (app_inv_head fileName), (app_inv_head (lit " ")) in Hbase.
Qed.

(** Among the numbers from 1 to one more than the size of the vault, one
    is unused. *)
Lemma unused_number (vault : gset (list N)) (parentPath fileName : list N) :
  exists k, (1 <= k)%N /\ (numberedPath parentPath fileName k ∉ vault).
Proof.
  set (f := fun i : nat => numberedPath parentPath fileName (N.of_nat i)).
  set (l := f <$> seq 1 (S (size vault))).
  assert (Hnd : NoDup l).
  { apply NoDup_fmap_2; [|apply NoDup_seq].
    intros i j Hij. apply numberedPath_inj in Hij. lia. }
  destruct (decide (Forall (fun x => x ∈ vault) l)) as [Hall|Hsome].
  - exfalso.
    assert (Hsub : list_to_set (C := gset (list N)) l ⊆ vault).
    { intros x Hx. apply elem_of_list_to_set in Hx.
      rewrite Forall_forall in Hall. by apply Hall. }
    apply subseteq_size in Hsub.
    rewrite size_list_to_set in Hsub by done.
    unfold l in Hsub. rewrite length_fmap, length_seq in Hsub. lia.
  - apply not_Forall_Exists in Hsome; [|intros x; apply _].
    apply Exists_exists in Hsome as (x & Hx & Hfree).
    apply list_elem_of_fmap in Hx as (i & -> & Hi).
    apply elem_of_seq in Hi. exists (N.of_nat i). split; [lia|done].
Qed.

(** An unused number yields the smallest one. *)
Lemma least_unused (used : N -> bool) (k0 : N) :
  (1 <= k0)%N -> used k0 = false ->
  exists k, (1 <= k)%N /\ used k = false
            /\ forall j, (1 <= j < k)%N -> used j = true.
Proof.
  intros Hk0 Hfree.
  assert (Hscan : forall n : N,
            (exists k, (1 <= k < n)%N /\ used k = false
                       /\ forall j, (1 <= j < k)%N -> used j = true)
            \/ (forall j, (1 <= j < n)%N -> used j = true)).
  { induction n as [|n IH] using N.peano_ind.
    - right. intros j Hj. lia.
    - destruct IH as [(k & Hk & Hf & Hmin)|Hall].
      + left. exists k. split; [lia|done].
      + destruct (N.eq_dec n 0%N) as [->|Hn].
        * right. intros j Hj. lia.
        * destruct (used n) eqn:Hun.
          -- right. intros j Hj.
             destruct (N.eq_dec j n) as [->|]; [done|]. apply Hall. lia.
          -- left. exists n. split; [lia|]. split; [done|exact Hall]. }
  destruct (Hscan k0) as [(k & Hk & Hf & Hmin)|Hall].
  - exists k. split; [lia|done].
  - exists k0. done.
Qed.

(** X30.  In a vault of finitely many paths that holds the note, the
    loop of [handleChoice("new")] terminates: there is a smallest unused number
    [k], and with the [k + 1] checks it needs the loop creates the copy
    numbered [k]. *)
Theorem numberedCopy_terminates (vault : gset (list N))
    (parentPath fileName : list N) :
  notePath parentPath fileName ∈ vault ->
  exists k,
    (1 <= k)%N
    /\ (numberedPath parentPath fileName k ∉ vault)
    /\ (forall j, (1 <= j < k)%N ->
        numberedPath parentPath fileName j ∈ vault)
    /\ forall fuel, N.to_nat k < fuel ->
         handleChoiceNew (existsIn vault) parentPath fileName fuel
         = Some (numberedPath parentPath fileName k).
Proof.
  intros Hnote.
  destruct (unused_number vault parentPath fileName) as (k0 & Hk0 & Hfree0).
  destruct (least_unused
              (fun k => existsIn vault (numberedPath parentPath fileName k))
              k0 Hk0) as (k & Hk & Hfree & Hmin).
  { unfold existsIn. by apply bool_decide_eq_false. }
  exists k. split; [done|]. split.
  { unfold existsIn in Hfree. by apply bool_decide_eq_false in Hfree. }
  split.
  { intros j Hj. specialize (Hmin j Hj). unfold existsIn in Hmin.
    by apply bool_decide_eq_true in Hmin. }
  intros fuel Hfuel. unfold handleChoiceNew.
  eapply (probe_reaches (existsIn vault) parentPath fileName k
            (N.to_nat (k - 1))); eauto; try lia.
  unfold existsIn. by apply bool_decide_eq_true.
Qed.

(** ** C8: the metrics of a streamed response *)

Lemma onChunk_startTime (s : Session) (a : Z * Chunk) :
  startTime (onChunk s a) = startTime s.
Proof.
  destruct a as [now [c u]]. unfold onChunk. simpl.
  destruct (nonEmpty (default [] c)), u as [[p q]|]; reflexivity.
Qed.

Lemma onChunk_firstTokenTime (s : Session) (a : Z * Chunk) :
  bearsContent a = false ->
  firstTokenTime (onChunk s a) = firstTokenTime s.
Proof.
  destruct a as [now [c u]]. unfold bearsContent, onChunk. simpl.
  intros ->. destruct u as [[p q]|]; reflexivity.
Qed.

Lemma fold_onChunk_startTime (chunks : list (Z * Chunk)) (s : Session) :
  startTime (fold_left onChunk chunks s) = startTime s.
Proof.
  revert s; induction chunks as [|a chunks IH]; intros s; simpl; [done|].
  by rewrite IH, onChunk_startTime.
Qed.

Lemma fold_onChunk_firstTokenTime (chunks : list (Z * Chunk))
    (s : Session) :
  forallb (fun a => negb (bearsContent a)) chunks = true ->
  firstTokenTime (fold_left onChunk chunks s) = firstTokenTime s.
Proof.
  revert s; induction chunks as [|a chunks IH]; intros s; simpl; [done|].
  intros H. apply andb_true_iff in H as [Ha Hrest].
  rewrite IH by done. apply onChunk_firstTokenTime.
  by destruct (bearsContent a).
Qed.

(** What holds of the metrics of every completed session: the speed is
    the literal zero when the completion count is not positive and the
    quotient of the count by the elapsed time when it is positive; the
    time to first token is zero when no chunk bore content. *)
Lemma session_metrics (start : Z) (chunks : list (Z * Chunk))
    (endTime : Z) :
  ((completionTokens (fst (session start chunks endTime)) <= 0)%Z ->
   tps (snd (session start chunks endTime)) = TpsZero)
  /\ ((0 < completionTokens (fst (session start chunks endTime)))%Z ->
      tps (snd (session start chunks endTime))
      = TpsQuotient (completionTokens (fst (session start chunks endTime)))
          (endTime - start))
  /\ (forallb (fun a => negb (bearsContent a)) chunks = true ->
      ttft (snd (session start chunks endTime)) = 0%Z).
Proof.
  unfold session, finish. simpl.
  set (s := fold_left onChunk chunks (openSession start)).
  assert (Hs : startTime s = start)
    by (unfold s; by rewrite fold_onChunk_startTime).
  repeat split.
  - intros H. by destruct (Z.ltb_spec 0 (completionTokens s)); [lia|].
  - intros H. rewrite Hs.
    by destruct (Z.ltb_spec 0 (completionTokens s)); [|lia].
  - intros H. unfold s. by rewrite fold_onChunk_firstTokenTime.
Qed.

(** The quotient is infinite exactly when a positive count meets a
    clock that did not advance between the start and the end. *)
Lemma session_tpsFinite (start : Z) (chunks : list (Z * Chunk))
    (endTime : Z) :
  tpsFinite (tps (snd (session start chunks endTime))) = false <->
  (0 < completionTokens (fst (session start chunks endTime)))%Z
  /\ endTime = start.
Proof.
  unfold session, finish. simpl.
  set (s := fold_left onChunk chunks (openSession start)).
  assert (Hs : startTime s = start)
    by (unfold s; by rewrite fold_onChunk_startTime).
  rewrite Hs.
  destruct (Z.ltb_spec 0 (completionTokens s)); simpl.
  - destruct (Z.eqb_spec (endTime - start) 0); simpl.
    + split; [intros _; split; [done|lia]|done].
    + split; [done|lia].
  - split; [done|lia].
Qed.

(** C8, at the input where the code departs from it.  A session whose
    clock reads the same millisecond at the start and at the end and
    whose usage reports two completion tokens: the text is accumulated
    and the counts recorded, and the speed is the quotient of 2 by an
    elapsed time of zero, which is infinite, where C8 has no such
    division performed. *)
Theorem session_divides_by_zero_duration :
  rollingText (fst (session 1000 instantChunks 1000)) = lit "Hello"
  /\ completionTokens (fst (session 1000 instantChunks 1000)) = 2%Z
  /\ totalDuration (snd (session 1000 instantChunks 1000)) = 0%Z
  /\ tps (snd (session 1000 instantChunks 1000)) = TpsQuotient 2 0
  /\ tpsFinite (tps (snd (session 1000 instantChunks 1000))) = false.
Proof. repeat split; reflexivity. Qed.

(** * Further properties of the code *)

(** ** The menu label at any limit *)

(** X1.  For every limit of at least 3 the label has at most that many
    code units; for a limit below 3, negative ones included, a label
    longer than the limit becomes the bare marker, three code units
    whatever the limit. *)
Theorem buildMenuLabel_limit (template selection : list N) (maxLength : Z) :
  ((3 <= maxLength)%Z ->
   (Z.of_nat (length (buildMenuLabel template selection maxLength))
    <= maxLength)%Z)
  /\ ((maxLength < 3)%Z ->
      (maxLength < Z.of_nat (length (spec_expandLabel template selection)))%Z
      -> buildMenuLabel template selection maxLength = lit "...").
Proof.
  assert (E : buildMenuLabel template selection maxLength
              = if (maxLength
                    <? Z.of_nat (length (spec_expandLabel template selection)))%Z
                then substring (spec_expandLabel template selection) 0
                       (maxLength - 3) ++ ellipsis
                else spec_expandLabel template selection).
  { unfold buildMenuLabel, spec_expandLabel, spec_cutSelection.
    rewrite (substring_prefix selection 24) by lia.
    change (Z.to_nat 24) with 24.
    replace (24 <? Z.of_nat (length selection))%Z
      with (24 <? length selection)%nat; [reflexivity|].
    destruct (Nat.ltb_spec 24 (length selection));
      destruct (Z.ltb_spec 24 (Z.of_nat (length selection))); lia. }
  rewrite E. set (label := spec_expandLabel template selection).
  split.
  - intros Hmax.
    destruct (Z.ltb_spec maxLength (Z.of_nat (length label))); [|lia].
    rewrite substring_prefix by lia.
    rewrite length_app, length_firstn, length_lit_ellipsis. lia.
  - intros Hmax Hlong.
    destruct (Z.ltb_spec maxLength (Z.of_nat (length label))); [|lia].
    unfold substring, clamp.
    replace (Z.to_nat (Z.min (Z.max (maxLength - 3) 0)
                         (Z.of_nat (length label)))) with 0 by lia.
    replace (Z.to_nat (Z.min (Z.max 0 0) (Z.of_nat (length label))))
      with 0 by lia.
    reflexivity.
Qed.

Lemma buildMenuLabel_limit_witness :
  (Z.of_nat (length (buildMenuLabel
                       (lit "Explain {{selection}} in {{context}}")
                       (lit "a rather long selected phrase, cut short") 50))
   <= 50)%Z
  /\ buildMenuLabel (lit "{{selection}}") (lit "word") 2 = lit "...".
Proof.
  split.
  - apply (buildMenuLabel_limit _ _ 50). lia.
  - apply (buildMenuLabel_limit (lit "{{selection}}") (lit "word") 2).
    + lia.
    + vm_compute. reflexivity.
Defined.

(** ** The scans of the prompt builder *)

Lemma startsWith_length (s p : list N) :
  startsWith s p = true -> length p <= length s.
Proof.
  revert s; induction p as [|a p IH]; intros [|b s]; simpl; intros H;
    try lia; try discriminate H.
  apply andb_true_iff in H as [_ H]. apply IH in H. lia.
Qed.

Lemma startsWith_separator (a b pat : list N) (c0 : N) :
  ~ In c0 pat ->
  startsWith (a ++ c0 :: b) pat = startsWith a pat.
Proof.
  revert a; induction pat as [|p pat IH]; intros a Hc0; [done|].
  destruct a as [|x a]; simpl.
  - destruct (N.eqb_spec p c0) as [->|]; [|done].
    exfalso. apply Hc0. by left.
  - rewrite IH; [done|]. intros H. apply Hc0. by right.
Qed.

Lemma replaceFrom_separator (pat rep b : list N) (c0 : N) :
  pat <> [] -> ~ In c0 pat ->
  forall (a : list N) (k : nat), k <= length a ->
    replaceFrom pat rep k (a ++ c0 :: b)
    = replaceFrom pat rep k a ++ c0 :: replaceFrom pat rep 0 b.
Proof.
  intros Hpat Hc0.
  induction a as [|x a IH]; intros k Hk.
  - assert (k = 0) as -> by (simpl in Hk; lia). simpl.
    destruct pat as [|p pat]; [done|]. simpl.
    destruct (N.eqb_spec p c0) as [->|]; [|done].
    exfalso. apply Hc0. by left.
  - destruct k as [|k].
    + change ((x :: a) ++ c0 :: b) with (x :: (a ++ c0 :: b)).
      cbn [replaceFrom].
      change (x :: a ++ c0 :: b) with ((x :: a) ++ c0 :: b).
      rewrite startsWith_separator by done.
      destruct (startsWith (x :: a) pat) eqn:Hm.
      * apply startsWith_length in Hm. simpl in Hm.
        rewrite IH by lia. by rewrite <- app_assoc.
      * rewrite IH by lia. reflexivity.
    + simpl. apply IH. simpl in Hk. lia.
Qed.

(** A code unit that does not occur in the pattern cuts the scan in
    two. *)
Lemma replaceAll_separator (pat rep a b : list N) (c0 : N) :
  pat <> [] -> ~ In c0 pat ->
  replaceAll pat rep (a ++ c0 :: b)
  = replaceAll pat rep a ++ c0 :: replaceAll pat rep b.
Proof.
  intros Hpat Hc0. unfold replaceAll.
  apply replaceFrom_separator; [done|done|lia].
Qed.

(** A text without the first code unit of the pattern is left as it
    is. *)
Lemma replaceAll_without_head (p : N) (pat rep s : list N) :
  ~ In p s -> replaceAll (p :: pat) rep s = s.
Proof.
  unfold replaceAll. induction s as [|x s IH]; intros Hp; [done|].
  cbn [replaceFrom startsWith].
  destruct (N.eqb_spec p x) as [->|_].
  - exfalso. apply Hp. by left.
  - simpl. f_equal. apply IH. intros H. apply Hp. by right.
Qed.

Lemma buildPrompt_cut (a b selection context : list N) (c0 : N) :
  ~ In c0 ph_selection -> ~ In c0 ph_context ->
  buildPrompt (a ++ c0 :: b) selection context
  = buildPrompt a selection context
      ++ c0 :: buildPrompt b selection context.
Proof.
  intros Hs Hc. unfold buildPrompt.
  rewrite (replaceAll_separator ph_selection) by done.
  by rewrite (replaceAll_separator ph_context).
Qed.

Lemma buildPrompt_plain (template selection context : list N) :
  ~ In 123%N template ->
  buildPrompt template selection context = template.
Proof.
  intros H. unfold buildPrompt.
  change ph_selection with (123%N :: lit "{selection}}").
  change ph_context with (123%N :: lit "{context}}").
  rewrite (replaceAll_without_head _ _ selection template) by done.
  by apply replaceAll_without_head.
Qed.

(** X2.  A code unit that occurs in neither placeholder (a space, a
    quote, a line feed, a letter such as E) separates the template:
    the prompt of [a ++ c0 :: b] is the prompt of [a], the code unit,
    and the prompt of [b]. *)
Theorem buildPrompt_separator (a b selection context : list N) (c0 : N) :
  ~ In c0 (lit "{{selection}}") ->
  ~ In c0 (lit "{{context}}") ->
  buildPrompt (a ++ c0 :: b) selection context
  = buildPrompt a selection context
      ++ c0 :: buildPrompt b selection context.
Proof. apply buildPrompt_cut. Qed.

Lemma buildPrompt_separator_witness :
  buildPrompt (lit "{{selection}}" ++ 32%N :: lit "{{context}}")
    (lit "foo") (lit "bar")
  = buildPrompt (lit "{{selection}}") (lit "foo") (lit "bar")
      ++ 32%N :: buildPrompt (lit "{{context}}") (lit "foo") (lit "bar").
Proof.
  apply (buildPrompt_separator (lit "{{selection}}") (lit "{{context}}")
           (lit "foo") (lit "bar") 32%N).
  - vm_compute. intuition discriminate.
  - vm_compute. intuition discriminate.
Defined.

(** X3.  A template without an opening brace is returned as it is,
    whatever the selection and the context. *)
Theorem buildPrompt_no_placeholder (template selection context : list N) :
  ~ In 123%N template ->
  buildPrompt template selection context = template.
Proof. apply buildPrompt_plain. Qed.

Lemma buildPrompt_no_placeholder_witness :
  buildPrompt (lit "no placeholders here") (lit "a") (lit "b")
  = lit "no placeholders here".
Proof.
  apply (buildPrompt_no_placeholder (lit "no placeholders here")).
  vm_compute. intuition discriminate.
Defined.

(** X4.  With the default template, a selection without an opening
    brace and any context give the sentence of the default prompt around
    them, both verbatim. *)
Theorem buildPrompt_default (selection context : list N) :
  ~ In 123%N selection ->
  buildPrompt (Settings.userPromptTemplate DEFAULT_SETTINGS) selection context
  = lit "Explain " ++ [34%N] ++ selection ++ [34%N]
      ++ lit " in the context of " ++ [34%N] ++ context ++ [34%N].
Proof.
  intros Hsel.
  assert (Hq1 : ~ In 34%N (lit "{{selection}}"))
    by (vm_compute; intuition discriminate).
  assert (Hq2 : ~ In 34%N (lit "{{context}}"))
    by (vm_compute; intuition discriminate).
  change (Settings.userPromptTemplate DEFAULT_SETTINGS)
    with (lit "Explain " ++ 34%N :: lit "{{selection}}"
            ++ 34%N :: lit " in the context of "
            ++ 34%N :: lit "{{context}}" ++ 34%N :: []).
  rewrite !buildPrompt_cut by done.
  rewrite (buildPrompt_plain (lit "Explain "))
    by (vm_compute; intuition discriminate).
  rewrite (buildPrompt_plain (lit " in the context of "))
    by (vm_compute; intuition discriminate).
  assert (E1 : buildPrompt (lit "{{selection}}") selection context
               = selection).
  { unfold buildPrompt.
    replace (replaceAll ph_selection selection (lit "{{selection}}"))
      with (selection ++ []) by reflexivity.
    rewrite app_nil_r.
    change ph_context with (123%N :: lit "{context}}").
    by apply replaceAll_without_head. }
  assert (E2 : buildPrompt (lit "{{context}}") selection context = context).
  { unfold buildPrompt.
    replace (replaceAll ph_selection selection (lit "{{context}}"))
      with (ph_context ++ []) by reflexivity.
    rewrite replaceAll_match by discriminate. apply app_nil_r. }
  rewrite E1, E2.
  change (buildPrompt [] selection context) with (@nil N).
  reflexivity.
Qed.

Lemma buildPrompt_default_witness :
  buildPrompt (Settings.userPromptTemplate DEFAULT_SETTINGS)
    (lit "monad") (lit "a monad is a monoid")
  = lit "Explain " ++ [34%N] ++ lit "monad" ++ [34%N]
      ++ lit " in the context of " ++ [34%N] ++ lit "a monad is a monoid"
      ++ [34%N].
Proof.
  apply (buildPrompt_default (lit "monad") (lit "a monad is a monoid")).
  vm_compute. intuition discriminate.
Defined.

(** ** The Ollama root *)

Lemma endsWith_snoc_differs (r p q : list N) (x y : N) :
  x <> y -> endsWith (r ++ p ++ [x]) (q ++ [y]) = false.
Proof.
  intros Hxy. unfold endsWith.
  rewrite !app_assoc, !rev_app_distr. simpl.
  destruct (N.eqb_spec y x) as [->|]; [done|reflexivity].
Qed.

Lemma nonEmpty_app_r (r p : list N) : p <> [] -> nonEmpty (r ++ p) = true.
Proof. intros Hp. destruct r, p; done. Qed.

Lemma deriveOllamaBaseUrl_strip (root : list N) :
  deriveOllamaBaseUrl (root ++ lit "/v1/") = root
  /\ deriveOllamaBaseUrl (root ++ lit "/v1") = root.
Proof.
  unfold deriveOllamaBaseUrl. split.
  - rewrite nonEmpty_app_r by discriminate. simpl negb. cbv iota.
    rewrite endsWith_app, length_app.
    change (length (lit "/v1/")) with 4.
    replace (length root + 4 - 4) with (length root + 0) by lia.
    by rewrite firstn_app_2, app_nil_r.
  - rewrite nonEmpty_app_r by discriminate. simpl negb. cbv iota.
    change (lit "/v1") with (lit "/v" ++ [49%N]).
    change (lit "/v1/") with (lit "/v1" ++ [47%N]).
    rewrite endsWith_snoc_differs by discriminate.
    change (lit "/v" ++ [49%N]) with (lit "/v1").
    rewrite endsWith_app, length_app.
    change (length (lit "/v1")) with 3.
    replace (length root + 3 - 3) with (length root + 0) by lia.
    by rewrite firstn_app_2, app_nil_r.
Qed.

(** X5.  Whatever the root, the base URL made of the root and the suffix
    [/v1/] or [/v1] derives back to the root: the suffix is stripped
    once, and only there. *)
Theorem deriveOllamaBaseUrl_root (root : list N) :
  deriveOllamaBaseUrl (root ++ lit "/v1/") = root
  /\ deriveOllamaBaseUrl (root ++ lit "/v1") = root.
Proof. apply deriveOllamaBaseUrl_strip. Qed.

(** ** The requests of a model fetch *)

Section Fetch.

Variable localeCompare : list N -> list N -> Z.

(** X6.  Whatever the network, the cache and the arguments, a call of
    [fetchModelsForProvider] sends at most one request; a request that
    carries an Authorization header goes to the OpenAI listing, for the
    provider [openai], and the header is the bearer of the key of the
    call: no key reaches OpenRouter or the Ollama host. *)
Theorem fetch_requests (requestUrl : Request -> result value)
    (modelCache : gmap (list N) (list value)) (provider : list N)
    (apiKey baseURL : option (list N)) :
  length (snd (fetchModelsForProvider localeCompare requestUrl modelCache
                 provider apiKey baseURL)) <= 1
  /\ forall req,
       In req (snd (fetchModelsForProvider localeCompare requestUrl
                      modelCache provider apiKey baseURL)) ->
       authorization req <> None ->
       provider = lit "openai"
       /\ url req = lit "https://api.openai.com/v1/models"
       /\ exists key, apiKey = Some key /\ key <> []
                      /\ authorization req = Some (lit "Bearer " ++ key).
Proof.
  unfold fetchModelsForProvider.
  destruct (modelCache !! provider); [simpl; split; [lia|tauto]|].
  destruct (bool_decide (provider = lit "openrouter")).
  { simpl. split; [lia|]. intros req [<-|[]] H. by destruct H. }
  destruct (bool_decide (provider = lit "openai")) eqn:Hopenai.
  { apply bool_decide_eq_true in Hopenai.
    destruct apiKey as [[|c key]|]; simpl; try (split; [lia|tauto]).
    split; [lia|]. intros req [<-|[]] _. simpl.
    split; [done|]. split; [done|]. by exists (c :: key). }
  destruct (bool_decide (provider = lit "ollama")).
  { simpl. split; [lia|]. intros req [<-|[]] H. by destruct H. }
  simpl. split; [lia|tauto].
Qed.

(** X7.  For a provider that is not cached, the Ollama listing is asked
    of the root of the configured base URL: a base URL [root/v1/] or
    [root/v1] gives the single request [root/api/tags], and no base URL,
    or an empty one, gives [http://localhost:11434/api/tags]; the request
    carries no Authorization header. *)
Theorem fetch_ollama_request (requestUrl : Request -> result value)
    (modelCache : gmap (list N) (list value)) (apiKey : option (list N))
    (root : list N) :
  modelCache !! lit "ollama" = None ->
  snd (fetchModelsForProvider localeCompare requestUrl modelCache
         (lit "ollama") apiKey (Some (root ++ lit "/v1/")))
  = [{| url := root ++ lit "/api/tags"; authorization := None |}]
  /\ snd (fetchModelsForProvider localeCompare requestUrl modelCache
            (lit "ollama") apiKey (Some (root ++ lit "/v1")))
     = [{| url := root ++ lit "/api/tags"; authorization := None |}]
  /\ snd (fetchModelsForProvider localeCompare requestUrl modelCache
            (lit "ollama") apiKey None)
     = [{| url := lit "http://localhost:11434/api/tags";
           authorization := None |}]
  /\ snd (fetchModelsForProvider localeCompare requestUrl modelCache
            (lit "ollama") apiKey (Some []))
     = [{| url := lit "http://localhost:11434/api/tags";
           authorization := None |}].
Proof.
  intros Hcache. unfold fetchModelsForProvider. rewrite Hcache.
  destruct (deriveOllamaBaseUrl_strip root) as [E1 E2].
  cbn [bool_decide decide_rel default snd].
  repeat split; simpl; by rewrite ?E1, ?E2.
Qed.



End Fetch.

Lemma fetch_ollama_request_witness :
  snd (fetchModelsForProvider ordinalCompare (answerWith VNull) ∅
         (lit "ollama") None (Some (lit "http://box:11434" ++ lit "/v1/")))
  = [{| url := lit "http://box:11434" ++ lit "/api/tags";
        authorization := None |}].
Proof.
  apply (fetch_ollama_request ordinalCompare (answerWith VNull) ∅ None
           (lit "http://box:11434")).
  reflexivity.
Defined.


(** ** The entries of the cache *)

Section CacheFrame.

Variable localeCompare : list N -> list N -> Z.

Lemma step_other (modelCache : gmap (list N) (list value)) (e : event)
    (provider : list N) :
  ~ In provider (openedProviders [e]) ->
  step localeCompare modelCache e !! provider = modelCache !! provider.
Proof.
  destruct e as [requestUrl p apiKey baseURL|p]; simpl; [|done].
  intros Hp. unfold pickerOnOpen.
  destruct (fetchModelsForProvider _ _ _ _ _ _) as [[l|err] sent]; simpl;
    [|done].
  apply lookup_insert_ne. intros ->. apply Hp. by left.
Qed.


(** X9.  The cache entry of a provider changes only when a picker is
    opened for that provider: a sequence of events none of which opens a
    picker for it leaves its entry, present or absent, as it was. *)
Theorem run_other_providers (modelCache : gmap (list N) (list value))
    (es : list event) (provider : list N) :
  ~ In provider (openedProviders es) ->
  run localeCompare modelCache es !! provider = modelCache !! provider.
Proof.
  revert modelCache. unfold run.
  induction es as [|e es IH]; intros modelCache Hp; simpl; [done|].
  rewrite IH.
  - apply step_other. intros H. apply Hp.
    unfold openedProviders in *. simpl in *.
    rewrite app_nil_r in H. apply in_or_app. by left.
  - intros H. apply Hp. unfold openedProviders in *. simpl.
    apply in_or_app. by right.
Qed.


End CacheFrame.

Lemma run_other_providers_witness :
  run ordinalCompare ∅
    [OpenPicker (answerWith (VObj [(lit "models", VArr [])]))
       (lit "ollama") None None;
     OpenExplain (lit "openai")]
    !! lit "openai"
  = (∅ : gmap (list N) (list value)) !! lit "openai".
Proof.
  apply (run_other_providers ordinalCompare ∅).
  vm_compute. intuition discriminate.
Defined.


(** ** The accumulation of a streamed response *)

Lemma onChunk_rollingText (s : Session) (a : Z * Chunk) :
  rollingText (onChunk s a)
  = rollingText s ++ default [] (content (snd a)).
Proof.
  destruct a as [now [c u]]. unfold onChunk. simpl.
  destruct (default [] c) as [|x r] eqn:Hc; simpl;
    destruct u as [[p q]|]; simpl; by rewrite ?app_nil_r.
Qed.

Lemma fold_onChunk_rollingText (chunks : list (Z * Chunk)) (s : Session) :
  rollingText (fold_left onChunk chunks s)
  = rollingText s
      ++ concat (List.map (fun a => default [] (content (snd a))) chunks).
Proof.
  revert s; induction chunks as [|a chunks IH]; intros s; simpl.
  - by rewrite app_nil_r.
  - by rewrite IH, onChunk_rollingText, <- app_assoc.
Qed.

(** X11.  The text of a session is the concatenation, in order of
    arrival, of the content of its chunks; chunks without content or
    with empty content add nothing. *)
Theorem session_text (start : Z) (chunks : list (Z * Chunk)) (endTime : Z) :
  rollingText (fst (session start chunks endTime))
  = concat (List.map (fun a => default [] (content (snd a))) chunks).
Proof. unfold session. simpl. by rewrite fold_onChunk_rollingText. Qed.

Lemma onChunk_tokens_none (s : Session) (a : Z * Chunk) :
  bearsUsage a = false ->
  promptTokens (onChunk s a) = promptTokens s
  /\ completionTokens (onChunk s a) = completionTokens s.
Proof.
  destruct a as [now [c u]]. unfold bearsUsage, onChunk. simpl.
  destruct u as [[p q]|]; [discriminate|]. intros _.
  by destruct (nonEmpty (default [] c)).
Qed.

Lemma fold_onChunk_tokens_none (chunks : list (Z * Chunk)) (s : Session) :
  forallb (fun a => negb (bearsUsage a)) chunks = true ->
  promptTokens (fold_left onChunk chunks s) = promptTokens s
  /\ completionTokens (fold_left onChunk chunks s) = completionTokens s.
Proof.
  revert s; induction chunks as [|a chunks IH]; intros s; simpl; [done|].
  intros H. apply andb_true_iff in H as [Ha Hrest].
  destruct (IH (onChunk s a) Hrest) as [-> ->].
  apply onChunk_tokens_none. by destruct (bearsUsage a).
Qed.

(** X12.  The token counts of a session are those of the last chunk
    that carried usage, and zero when no chunk did; with no usage the
    speed is the literal zero whatever the clock. *)
Theorem session_usage (start : Z) (before after : list (Z * Chunk))
    (now : Z) (c : option (list N)) (p q : Z) (endTime : Z) :
  (forallb (fun a => negb (bearsUsage a)) after = true ->
   promptTokens
     (fst (session start
             (before ++ (now, {| content := c; usage := Some (p, q) |})
                :: after) endTime)) = p
   /\ completionTokens
        (fst (session start
                (before ++ (now, {| content := c; usage := Some (p, q) |})
                   :: after) endTime)) = q)
  /\ (forallb (fun a => negb (bearsUsage a)) after = true ->
      promptTokens (fst (session start after endTime)) = 0%Z
      /\ completionTokens (fst (session start after endTime)) = 0%Z
      /\ tps (snd (session start after endTime)) = TpsZero).
Proof.
  split; intros Hafter.
  - unfold session. cbn [fst]. rewrite fold_left_app. cbn [fold_left].
    destruct (fold_onChunk_tokens_none after
                (onChunk (fold_left onChunk before (openSession start))
                   (now, {| content := c; usage := Some (p, q) |}))
                Hafter) as [E1 E2].
    rewrite E1, E2. unfold onChunk. cbn [usage content].
    by destruct (nonEmpty (default [] c)).
  - unfold session, finish. cbn [fst snd tps].
    destruct (fold_onChunk_tokens_none after (openSession start) Hafter)
      as [E1 E2].
    rewrite E1, E2. done.
Qed.

Lemma session_usage_witness :
  completionTokens (fst (session 1000 instantChunks 1900)) = 2%Z.
Proof.
  apply (session_usage 1000
           [ (1000%Z, {| content := Some (lit "Hel"); usage := None |});
             (1000%Z, {| content := Some (lit "lo"); usage := None |}) ]
           [] 1000 None 10 2 1900).
  reflexivity.
Defined.

Lemma onChunk_firstTokenTime_set (s : Session) (a : Z * Chunk) (t : Z) :
  firstTokenTime s = Some t -> firstTokenTime (onChunk s a) = Some t.
Proof.
  destruct a as [now [c u]]. unfold onChunk. simpl. intros H.
  destruct (nonEmpty (default [] c)), u as [[p q]|]; simpl; by rewrite ?H.
Qed.

Lemma onChunk_firstTokenTime_first (s : Session) (a : Z * Chunk) :
  firstTokenTime s = None -> bearsContent a = true ->
  firstTokenTime (onChunk s a) = Some (fst a).
Proof.
  destruct a as [now [c u]]. unfold bearsContent, onChunk. simpl.
  intros Hs ->. rewrite Hs. by destruct u as [[p q]|].
Qed.

Lemma fold_onChunk_firstTokenTime_set (chunks : list (Z * Chunk))
    (s : Session) (t : Z) :
  firstTokenTime s = Some t ->
  firstTokenTime (fold_left onChunk chunks s) = Some t.
Proof.
  revert s; induction chunks as [|a chunks IH]; intros s H; simpl; [done|].
  apply IH. by apply onChunk_firstTokenTime_set.
Qed.

(** X13.  The first-token time of a session is the clock at the arrival
    of the first chunk that bears content, whatever arrives later, and
    the time to first token is that clock minus the start (zero when
    that clock reads 0). *)
Theorem session_first_token (start : Z) (before after : list (Z * Chunk))
    (first : Z * Chunk) (endTime : Z) :
  forallb (fun a => negb (bearsContent a)) before = true ->
  bearsContent first = true ->
  firstTokenTime (fst (session start (before ++ first :: after) endTime))
  = Some (fst first)
  /\ ttft (snd (session start (before ++ first :: after) endTime))
     = if (fst first =? 0)%Z then 0%Z else (fst first - start)%Z.
Proof.
  intros Hbefore Hfirst.
  assert (E : firstTokenTime
                (fold_left onChunk (before ++ first :: after)
                   (openSession start)) = Some (fst first)).
  { rewrite fold_left_app. simpl.
    apply fold_onChunk_firstTokenTime_set.
    apply onChunk_firstTokenTime_first; [|done].
    by rewrite fold_onChunk_firstTokenTime. }
  unfold session, finish. simpl. rewrite E. split; [done|].
  by rewrite fold_onChunk_startTime.
Qed.

Lemma session_first_token_witness :
  ttft (snd (session 1000
               [ (1100%Z, {| content := None; usage := None |});
                 (1250%Z, {| content := Some (lit "Hel"); usage := None |});
                 (1400%Z, {| content := Some (lit "lo"); usage := None |}) ]
               1500))
  = 250%Z.
Proof.
  apply (session_first_token 1000
           [ (1100%Z, {| content := None; usage := None |}) ]
           [ (1400%Z, {| content := Some (lit "lo"); usage := None |}) ]
           (1250%Z, {| content := Some (lit "Hel"); usage := None |}) 1500);
    reflexivity.
Defined.

(** ** The context window *)

Lemma substring_ordered (s : list N) (a b : nat) :
  a <= b ->
  firstn (Nat.max (Nat.min a (length s)) (Nat.min b (length s))
          - Nat.min (Nat.min a (length s)) (Nat.min b (length s)))
    (skipn (Nat.min (Nat.min a (length s)) (Nat.min b (length s))) s)
  = skipn a (firstn b s).
Proof.
  intros Hab.
  set (a' := Nat.min a (length s)). set (b' := Nat.min b (length s)).
  replace (Nat.max a' b') with b' by lia.
  replace (Nat.min a' b') with a' by lia.
  subst a' b'.
  rewrite firstn_skipn_comm.
  replace (Nat.min a (length s)
           + (Nat.min b (length s) - Nat.min a (length s)))
    with (Nat.min b (length s)) by lia.
  assert (Hb : firstn (Nat.min b (length s)) s = firstn b s).
  { destruct (Nat.le_ge_cases b (length s)).
    - by rewrite Nat.min_l.
    - rewrite Nat.min_r by done.
      by rewrite firstn_all, firstn_all2. }
  rewrite Hb.
  destruct (Nat.le_ge_cases a (length s)).
  - by rewrite Nat.min_l.
  - rewrite Nat.min_r by done.
    rewrite !skipn_all2; [done| |]; rewrite length_firstn; lia.
Qed.

(** X14.  The context handed to the prompt is the part of the cursor's
    line from 500 code units before the cursor to 500 after it, cut at
    the ends of the line; it never has more than 1000 code units, and
    it is the whole line when the line has at most 500 and the cursor
    is on it. *)
Theorem contextWindow_span (line : list N) (ch : Z) :
  contextWindow line ch
  = skipn (Z.to_nat (ch - 500)) (firstn (Z.to_nat (ch + 500)) line)
  /\ length (contextWindow line ch) <= 1000
  /\ ((0 <= ch <= Z.of_nat (length line))%Z -> length line <= 500 ->
      contextWindow line ch = line).
Proof.
  assert (E : contextWindow line ch
              = skipn (Z.to_nat (ch - 500))
                  (firstn (Z.to_nat (ch + 500)) line)).
  { unfold contextWindow, substring.
    rewrite <- (substring_ordered line (Z.to_nat (ch - 500))
                  (Z.to_nat (ch + 500))) by lia.
    assert (Ha : clamp (length line)
                   (if (0 <? ch - 500)%Z then (ch - 500)%Z else 0%Z)
                 = Nat.min (Z.to_nat (ch - 500)) (length line)).
    { unfold clamp. destruct (Z.ltb_spec 0 (ch - 500)); lia. }
    assert (Hb : clamp (length line)
                   (if (ch + 500 <? Z.of_nat (length line))%Z
                    then (ch + 500)%Z else Z.of_nat (length line))
                 = Nat.min (Z.to_nat (ch + 500)) (length line)).
    { unfold clamp.
      destruct (Z.ltb_spec (ch + 500) (Z.of_nat (length line))); lia. }
    by rewrite Ha, Hb. }
  split; [exact E|]. split.
  - rewrite E, length_skipn, length_firstn. lia.
  - intros Hch Hlen. rewrite E.
    replace (Z.to_nat (ch - 500)) with 0 by lia.
    simpl. apply firstn_all2. lia.
Qed.

Lemma contextWindow_span_witness :
  contextWindow (lit "a short line") 5 = lit "a short line".
Proof.
  apply (contextWindow_span (lit "a short line") 5).
  - simpl. lia.
  - simpl. lia.
Defined.

(** ** The paths and the link of a saved note *)

Lemma notePath_split (parentPath base : list N) :
  notePath parentPath base
  = (if nonEmpty parentPath then parentPath ++ lit "/" ++ base else base)
      ++ lit ".md".
Proof.
  unfold notePath. destruct (nonEmpty parentPath); [|done].
  by rewrite <- !app_assoc.
Qed.

Lemma stripMd_notePath (parentPath base : list N) :
  stripMd (notePath parentPath base)
  = if nonEmpty parentPath then parentPath ++ lit "/" ++ base else base.
Proof.
  rewrite notePath_split. unfold stripMd.
  rewrite endsWith_app, length_app.
  change (length (lit ".md")) with 3.
  set (stem := if nonEmpty parentPath then _ else _).
  replace (length stem + 3 - 3) with (length stem + 0) by lia.
  by rewrite firstn_app_2, app_nil_r.
Qed.

(** X15.  The link that replaces the selection points at the saved note
    without its extension: for every folder, base name and number, the
    link to the note, or to its numbered copy, is the folder, a slash
    and the name (the name alone in the root folder) between the
    brackets, then a bar and the selection. *)
Theorem wikiLink_of_note (parentPath fileName userSelection : list N)
    (counter : N) :
  wikiLink (notePath parentPath fileName) userSelection
  = lit "[["
      ++ (if nonEmpty parentPath then parentPath ++ lit "/" ++ fileName
          else fileName)
      ++ lit "|" ++ userSelection ++ lit "]]"
  /\ wikiLink (numberedPath parentPath fileName counter) userSelection
     = lit "[["
         ++ (if nonEmpty parentPath
             then parentPath ++ lit "/" ++ fileName ++ lit " "
                    ++ numberToString counter
             else fileName ++ lit " " ++ numberToString counter)
         ++ lit "|" ++ userSelection ++ lit "]]".
Proof.
  unfold wikiLink, numberedPath. by rewrite !stripMd_notePath.
Qed.

(** ** What the numbered-copy loop returns *)

Section NumberedCopySound.

Variable exists_ : list N -> bool.
Variables parentPath fileName : list N.

Lemma probe_sound (fuel : nat) :
  forall (finalPath : list N) (counter : N) (path : list N),
    probe exists_ parentPath fileName fuel finalPath counter = Some path ->
    exists_ path = false
    /\ (path = finalPath
        \/ exists k,
             (counter <= k)%N
             /\ path = numberedPath parentPath fileName k
             /\ exists_ finalPath = true
             /\ forall j, (counter <= j < k)%N ->
                  exists_ (numberedPath parentPath fileName j) = true).
Proof.
  induction fuel as [|fuel IH]; intros finalPath counter path; simpl;
    [discriminate|].
  destruct (exists_ finalPath) eqn:Hfp.
  - intros H. apply IH in H as [Hfree Hcase]. split; [done|]. right.
    destruct Hcase as [->|(k & Hk & -> & Hc & Hused)].
    + exists counter. split; [lia|]. split; [done|]. split; [done|].
      intros j Hj. lia.
    + exists k. split; [lia|]. split; [done|]. split; [done|].
      intros j Hj. destruct (N.eq_dec j counter) as [->|]; [done|].
      apply Hused. lia.
  - intros [= <-]. split; [done|]. by left.
Qed.

(** X16.  Whatever the existence check and the number of checks
    allowed, a path returned by the loop of [handleChoice("new")] does
    not exist; it is the note's own path, or the copy numbered [k] for
    some [k >= 1] such that the note and every copy numbered below [k]
    exist. *)
Theorem handleChoiceNew_sound (fuel : nat) (path : list N) :
  handleChoiceNew exists_ parentPath fileName fuel = Some path ->
  exists_ path = false
  /\ (path = notePath parentPath fileName
      \/ exists k,
           (1 <= k)%N
           /\ path = numberedPath parentPath fileName k
           /\ exists_ (notePath parentPath fileName) = true
           /\ forall j, (1 <= j < k)%N ->
                exists_ (numberedPath parentPath fileName j) = true).
Proof. unfold handleChoiceNew. apply probe_sound. Qed.

End NumberedCopySound.

Lemma handleChoiceNew_sound_witness :
  vaultExample (lit "notes/Topic 3.md") = false.
Proof.
  apply (handleChoiceNew_sound vaultExample (lit "notes") (lit "Topic") 7
           (lit "notes/Topic 3.md")).
  reflexivity.
Defined.

(** ** Saving into the vault *)

Lemma vaultExists_false (vault : gmap (list N) (list N)) (path : list N) :
  vaultExists vault path = false <-> vault !! path = None.
Proof.
  unfold vaultExists. rewrite bool_decide_eq_false.
  rewrite <- eq_None_not_Some. done.
Qed.

(** X17.  A numbered copy never overwrites: when [handleChoice("new")]
    ends it has saved, never failed; the path it created was absent from
    the vault; the vault is the old one with that single note added,
    holding the explanation; every note that existed keeps its
    content. *)
Theorem handleChoice_new_keeps (vault : gmap (list N) (list N))
    (parentPath fileName fullText userSelection : list N) (fuel : nat)
    (outcome : saveOutcome) :
  handleChoice New vault parentPath fileName fullText userSelection fuel
    = Some outcome ->
  exists finalPath,
    outcome = Saved (<[finalPath := fullText]> vault) finalPath
                (wikiLink finalPath userSelection)
    /\ vault !! finalPath = None
    /\ forall path text, vault !! path = Some text ->
         (<[finalPath := fullText]> vault) !! path = Some text.
Proof.
  unfold handleChoice.
  destruct (handleChoiceNew _ _ _ _) as [finalPath|] eqn:Hloop;
    [|discriminate].
  apply probe_sound in Hloop as [Hfree _].
  apply vaultExists_false in Hfree.
  unfold vaultCreate. rewrite Hfree. intros [= <-].
  exists finalPath. split; [done|]. split; [done|].
  intros path text Hpath. rewrite lookup_insert_ne; [done|].
  intros ->. congruence.
Qed.

Lemma handleChoice_new_keeps_witness :
  exists finalPath,
    Saved (<[lit "Topic 1.md" := lit "text"]> {[ lit "Topic.md" := lit "old" ]})
      (lit "Topic 1.md") (lit "[[Topic 1|Topic]]")
    = Saved (<[finalPath := lit "text"]> {[ lit "Topic.md" := lit "old" ]})
        finalPath (wikiLink finalPath (lit "Topic"))
    /\ ({[ lit "Topic.md" := lit "old" ]} : gmap (list N) (list N))
         !! finalPath = None
    /\ forall path text,
         ({[ lit "Topic.md" := lit "old" ]} : gmap (list N) (list N))
           !! path = Some text ->
         (<[finalPath := lit "text"]> {[ lit "Topic.md" := lit "old" ]}
            : gmap (list N) (list N)) !! path = Some text.
Proof.
  apply (handleChoice_new_keeps {[ lit "Topic.md" := lit "old" ]} []
           (lit "Topic") (lit "text") (lit "Topic") 5).
  reflexivity.
Defined.

(** X18.  Appending creates no note: when the note exists,
    [handleChoice("append")] leaves the same set of paths, leaves every
    other note as it was, and makes the note its old content, the
    separator and the explanation, in that order; the link points at
    the note. *)
Theorem handleChoice_append (vault : gmap (list N) (list N))
    (parentPath fileName fullText userSelection existing : list N)
    (fuel : nat) :
  vault !! notePath parentPath fileName = Some existing ->
  exists vault',
    handleChoice Append vault parentPath fileName fullText userSelection fuel
    = Some (Saved vault' (notePath parentPath fileName)
              (wikiLink (notePath parentPath fileName) userSelection))
    /\ vault' !! notePath parentPath fileName
       = Some (existing ++ separator ++ fullText)
    /\ dom vault' = dom vault
    /\ forall path, path <> notePath parentPath fileName ->
         vault' !! path = vault !! path.
Proof.
  intros Hnote. unfold handleChoice. rewrite Hnote.
  eexists. split; [reflexivity|]. split; [apply lookup_insert_eq|].
  split.
  - apply dom_insert_lookup_L. by eexists.
  - intros path Hpath. by rewrite lookup_insert_ne.
Qed.

Lemma handleChoice_append_witness :
  exists vault',
    handleChoice Append {[ lit "Topic.md" := lit "old" ]} [] (lit "Topic")
      (lit "new") (lit "Topic") 0
    = Some (Saved vault' (notePath [] (lit "Topic"))
              (wikiLink (notePath [] (lit "Topic")) (lit "Topic")))
    /\ vault' !! notePath [] (lit "Topic")
       = Some (lit "old" ++ separator ++ lit "new")
    /\ dom vault' = dom ({[ lit "Topic.md" := lit "old" ]}
                          : gmap (list N) (list N))
    /\ forall path, path <> notePath [] (lit "Topic") ->
         vault' !! path
         = ({[ lit "Topic.md" := lit "old" ]} : gmap (list N) (list N))
             !! path.
Proof.
  apply (handleChoice_append {[ lit "Topic.md" := lit "old" ]} []
           (lit "Topic") (lit "new") (lit "Topic") (lit "old") 0).
  reflexivity.
Defined.

(** ** Switching the provider *)

(** X19.  Switching the provider to [custom], [openai] or [ollama]
    decides the whole configuration of the next request, whatever the
    settings were: the base URL and the model of that provider (empty
    for [custom]), the placeholder key, since the key is cleared, and
    no headers. *)
Theorem onProviderChange_config (settings : Settings.t) :
  getProviderConfig (onProviderChange (lit "custom") settings)
    = {| ProviderConfig.baseURL := [];
         ProviderConfig.apiKey := lit "-";
         ProviderConfig.model := [];
         ProviderConfig.defaultHeaders := None |}
  /\ getProviderConfig (onProviderChange (lit "openai") settings)
     = {| ProviderConfig.baseURL := lit "https://api.openai.com/v1/";
          ProviderConfig.apiKey := lit "-";
          ProviderConfig.model := lit "gpt-4o-mini";
          ProviderConfig.defaultHeaders := None |}
  /\ getProviderConfig (onProviderChange (lit "ollama") settings)
     = {| ProviderConfig.baseURL := lit "http://localhost:11434/v1/";
          ProviderConfig.apiKey := lit "-";
          ProviderConfig.model := lit "llama3";
          ProviderConfig.defaultHeaders := None |}.
Proof. repeat split; reflexivity. Qed.

(** X20.  No switch of provider touches the OpenRouter fields or the
    prompts, and a switch to [openrouter] keeps the generic key and
    model as well; the generic key is lost by a later switch to any of
    the other three providers. *)
Theorem onProviderChange_keeps (value : list N) (settings : Settings.t) :
  Settings.dropdownValue (onProviderChange value settings) = value
  /\ Settings.openRouterModel (onProviderChange value settings)
     = Settings.openRouterModel settings
  /\ Settings.openRouterApiKey (onProviderChange value settings)
     = Settings.openRouterApiKey settings
  /\ Settings.openRouterReferer (onProviderChange value settings)
     = Settings.openRouterReferer settings
  /\ Settings.openRouterTitle (onProviderChange value settings)
     = Settings.openRouterTitle settings
  /\ Settings.systemPrompt (onProviderChange value settings)
     = Settings.systemPrompt settings
  /\ Settings.userPromptTemplate (onProviderChange value settings)
     = Settings.userPromptTemplate settings
  /\ Settings.apiKey (onProviderChange (lit "openrouter") settings)
     = Settings.apiKey settings
  /\ Settings.endpoint (onProviderChange (lit "openrouter") settings)
     = Settings.endpoint settings
  /\ (In value [lit "custom"; lit "openai"; lit "ollama"] ->
      Settings.apiKey
        (onProviderChange value
           (onProviderChange (lit "openrouter") settings)) = []).
Proof.
  unfold onProviderChange.
  repeat split;
    try (repeat (destruct (bool_decide _)); reflexivity).
  intros [<-|[<-|[<-|[]]]]; reflexivity.
Qed.

Lemma onProviderChange_keeps_witness :
  Settings.apiKey
    (onProviderChange (lit "openai")
       (onProviderChange (lit "openrouter") refererOnlySettings)) = [].
Proof.
  apply (onProviderChange_keeps (lit "openai") refererOnlySettings).
  right; left; reflexivity.
Defined.

(** X21.  For every provider other than [openrouter] the configuration
    is the generic base URL and model verbatim, the generic key under
    the placeholder rule, and no headers: the OpenRouter key and the
    attribution headers are not used, whatever they hold. *)
Theorem getProviderConfig_generic (settings : Settings.t) :
  Settings.dropdownValue settings <> lit "openrouter" ->
  getProviderConfig settings
  = {| ProviderConfig.baseURL := Settings.baseURL settings;
       ProviderConfig.apiKey :=
         if nonEmpty (Settings.apiKey settings) then Settings.apiKey settings
         else lit "-";
       ProviderConfig.model := Settings.endpoint settings;
       ProviderConfig.defaultHeaders := None |}.
Proof.
  intros H. unfold getProviderConfig.
  rewrite (bool_decide_false _ H). cbn [andb].
  rewrite map_size_empty. simpl.
  by destruct (Settings.apiKey settings).
Qed.

Lemma getProviderConfig_generic_witness :
  getProviderConfig DEFAULT_SETTINGS
  = {| ProviderConfig.baseURL := lit "https://api.openai.com/v1/";
       ProviderConfig.apiKey := lit "-";
       ProviderConfig.model := lit "gpt-4o-mini";
       ProviderConfig.defaultHeaders := None |}.
Proof.
  apply (getProviderConfig_generic DEFAULT_SETTINGS). discriminate.
Defined.

(** ** The OpenAI filter as a selection *)

Section Selection.

Variable localeCompare : list N -> list N -> Z.

Lemma insertBy_Permutation {A} (key : A -> list N) (x : A) (l : list A) :
  Permutation (insertBy localeCompare key x l) (x :: l).
Proof.
  induction l as [|y l IH]; simpl; [done|].
  destruct (localeCompare (key x) (key y) <=? 0)%Z; [done|].
  rewrite IH. apply perm_swap.
Qed.

Lemma sortBy_Permutation {A} (key : A -> list N) (l : list A) :
  Permutation (sortBy localeCompare key l) l.
Proof.
  induction l as [|x l IH]; simpl; [done|].
  rewrite insertBy_Permutation. by constructor.
Qed.

(** X22.  Whatever the comparator does, [filterOpenAIModels] returns
    the kept entries and nothing else: its result is a rearrangement of
    the id records of the models whose id starts with an allowed prefix
    and with no denied one, each as often as the input lists it, so it
    is never longer than the input. *)
Theorem filterOpenAIModels_selection (models : list RawModel) :
  Permutation (filterOpenAIModels localeCompare models)
    (List.map idOnly (List.filter keepModel models))
  /\ length (filterOpenAIModels localeCompare models) <= length models.
Proof.
  assert (P : Permutation (filterOpenAIModels localeCompare models)
                (List.map idOnly (List.filter keepModel models)))
    by apply sortBy_Permutation.
  split; [exact P|].
  rewrite (Permutation_length P), length_map. apply List.filter_length_le.
Qed.

End Selection.

(** ** Searching the catalogue *)

Lemma startsWith_iff (s q : list N) :
  startsWith s q = true <-> exists post, s = q ++ post.
Proof.
  split.
  - intros H. eexists. by apply startsWith_prefix.
  - intros [post ->]. apply startsWith_app.
Qed.

Lemma includes_iff (s q : list N) :
  includes s q = true <-> exists pre post, s = pre ++ q ++ post.
Proof.
  induction s as [|x s IH]; simpl.
  - rewrite orb_false_r, startsWith_iff. split.
    + intros [post H]. by exists [], post.
    + intros (pre & post & H). destruct pre; [by exists post|discriminate].
  - rewrite orb_true_iff, startsWith_iff, IH. split.
    + intros [[post H]|(pre & post & ->)].
      * by exists [], post.
      * by exists (x :: pre), post.
    + intros (pre & post & H). destruct pre as [|y pre].
      * left. by exists post.
      * right. injection H as -> ->. by exists pre, post.
Qed.

Lemma includes_trans (a b c : list N) :
  includes a b = true -> includes b c = true -> includes a c = true.
Proof.
  rewrite !includes_iff.
  intros (pre & post & ->) (pre' & post' & ->).
  exists (pre ++ pre'), (post' ++ post). by rewrite <- !app_assoc.
Qed.

Lemma filter_narrower {A} (f g : A -> bool) (l : list A) :
  (forall x, f x = true -> g x = true) ->
  List.filter f (List.filter g l) = List.filter f l.
Proof.
  intros H. induction l as [|x l IH]; simpl; [done|].
  destruct (g x) eqn:Hg; simpl.
  - by rewrite IH.
  - destruct (f x) eqn:Hf; [|done]. apply H in Hf. congruence.
Qed.

Section SearchProperties.

Variable toLowerCase : list N -> list N.

Lemma matchesQuery_narrower (lower lower' : list N) (m : ModelInfo.t) :
  includes lower' lower = true ->
  matchesQuery toLowerCase lower' m = true ->
  matchesQuery toLowerCase lower m = true.
Proof.
  intros Hsub. unfold matchesQuery. rewrite !orb_true_iff.
  intros [Hid|Hname].
  - left. eapply includes_trans; eauto.
  - right. destruct (ModelInfo.name m) as [n|]; [|done].
    apply andb_true_iff in Hname as [Hn Hinc].
    rewrite Hn. simpl. eapply includes_trans; eauto.
Qed.

(** X23.  Searching within the results of a search: when the lowered
    first query occurs in the lowered second query, which is not empty,
    searching the results of the first query for the second gives what
    searching the whole list for the second gives; in particular every
    model found for the second query was found for the first. *)
Theorem filterModels_refine (models : list ModelInfo.t)
    (query query' : list N) :
  query' <> [] ->
  includes (toLowerCase query') (toLowerCase query) = true ->
  filterModels toLowerCase (filterModels toLowerCase models query) query'
  = filterModels toLowerCase models query'
  /\ forall m, In m (filterModels toLowerCase models query') ->
       In m (filterModels toLowerCase models query).
Proof.
  intros Hq' Hsub.
  assert (E : filterModels toLowerCase
                (filterModels toLowerCase models query) query'
              = filterModels toLowerCase models query').
  { unfold filterModels.
    destruct query' as [|c q']; [done|]. cbn [nonEmpty negb].
    destruct (nonEmpty query); cbn [negb]; [|done].
    apply filter_narrower. intros m.
    by apply matchesQuery_narrower. }
  split; [exact E|].
  intros m Hm. rewrite <- E in Hm. unfold filterModels at 1 in Hm.
  destruct query' as [|c q']; [done|]. cbn [nonEmpty negb] in Hm.
  by apply List.filter_In in Hm as [Hm _].
Qed.

End SearchProperties.

Lemma filterModels_refine_witness :
  filterModels asciiLower
    (filterModels asciiLower
       [ {| ModelInfo.id := lit "gpt-4o"; ModelInfo.name := Some (lit "GPT 4o");
            ModelInfo.pricing := None |};
         {| ModelInfo.id := lit "gpt-3.5"; ModelInfo.name := None;
            ModelInfo.pricing := None |};
         {| ModelInfo.id := lit "llama3"; ModelInfo.name := None;
            ModelInfo.pricing := None |} ] (lit "GP")) (lit "gpt-4")
  = [ {| ModelInfo.id := lit "gpt-4o"; ModelInfo.name := Some (lit "GPT 4o");
         ModelInfo.pricing := None |} ].
Proof.
  refine (eq_trans
            (proj1 (filterModels_refine asciiLower _ (lit "GP") (lit "gpt-4")
                      _ _)) _).
  - discriminate.
  - reflexivity.
  - reflexivity.
Defined.

(** ** The parsers on well-formed listings *)

Section Listings.

Variable localeCompare : list N -> list N -> Z.

Lemma insertBy_map {A B} (f : A -> B) (key : B -> list N)
    (key' : A -> list N) (x : A) (l : list A) :
  (forall a, key (f a) = key' a) ->
  insertBy localeCompare key (f x) (List.map f l)
  = List.map f (insertBy localeCompare key' x l).
Proof.
  intros Hkey. induction l as [|y l IH]; simpl; [done|].
  rewrite !Hkey.
  destruct (localeCompare (key' x) (key' y) <=? 0)%Z; simpl; [done|].
  by rewrite IH.
Qed.

Lemma sortBy_map {A B} (f : A -> B) (key : B -> list N)
    (key' : A -> list N) (l : list A) :
  (forall a, key (f a) = key' a) ->
  sortBy localeCompare key (List.map f l)
  = List.map f (sortBy localeCompare key' l).
Proof.
  intros Hkey. induction l as [|x l IH]; simpl; [done|].
  rewrite IH. by apply insertBy_map.
Qed.

Lemma sortById_idEntry (names : list (list N)) :
  sortById localeCompare (List.map idEntry names)
  = Ok (List.map idEntry (sortBy localeCompare (fun n => n) names)).
Proof.
  unfold sortById.
  destruct names as [|a [|b names]]; [done|done|].
  set (l := a :: b :: names).
  change (List.map idEntry (a :: b :: names)) with (List.map idEntry l).
  destruct (List.map idEntry l) as [|x [|y r]] eqn:Hl;
    [discriminate|discriminate|].
  rewrite <- Hl.
  assert (Hall : forallb
                   (fun m => bool_decide (is_Some (asString (idOf m))))
                   (List.map idEntry l) = true).
  { apply forallb_forall. intros m Hm.
    apply in_map_iff in Hm as (n & <- & _).
    apply bool_decide_eq_true. by eexists. }
  rewrite Hall. f_equal. by apply sortBy_map.
Qed.

Lemma mapM_Forall2 {A B} (f : A -> result B) (l : list A) (l' : list B) :
  Forall2 (fun a b => f a = Ok b) l l' -> mapM f l = Ok l'.
Proof.
  induction 1 as [|a b l l' Hab _ IH]; simpl; [done|].
  rewrite Hab. simpl. rewrite IH. reflexivity.
Qed.

(** X24.  On a well-formed Ollama listing, an object whose [models]
    field is an array of objects that each have a string [name] (and
    whatever other fields), [parseOllamaModels] returns one [{ id }]
    entry per model, the id being the name, arranged as the sort
    arranges the names. *)
Theorem parseOllamaModels_listing (props : list (list N * value))
    (entries : list value) (names : list (list N)) :
  lookupProp props (lit "models") = VArr entries ->
  Forall2 (fun e n => exists fields,
             e = VObj fields /\ lookupProp fields (lit "name") = VStr n)
    entries names ->
  parseOllamaModels localeCompare (VObj props)
  = Ok (List.map idEntry (sortBy localeCompare (fun n => n) names))
  /\ Permutation (sortBy localeCompare (fun n => n) names) names.
Proof.
  intros Hmodels Hentries. split.
  - unfold parseOllamaModels, fieldOrEmpty. simpl.
    rewrite Hmodels. simpl.
    rewrite (mapM_Forall2 ollamaEntry entries (List.map idEntry names)).
    + simpl. apply sortById_idEntry.
    + clear Hmodels.
      induction Hentries as [|e n es ns (fields & -> & Hn) _ IH]; simpl;
        [constructor|].
      constructor; [|exact IH].
      unfold ollamaEntry. simpl. by rewrite Hn.
  - apply sortBy_Permutation.
Qed.


(** X26.  On a well-formed OpenAI listing, an array of objects that
    each have a string [id] (and whatever other fields), the untyped
    call that [fetchModelsForProvider] makes returns the run-time
    objects of what [filterOpenAIModels] returns for the ids, each an
    object with the single field [id]. *)
Theorem filterOpenAIModels_untyped (entries : list value)
    (ids : list (list N)) :
  Forall2 (fun e i => exists fields,
             e = VObj fields /\ lookupProp fields (lit "id") = VStr i)
    entries ids ->
  filterOpenAIModels_any localeCompare (VArr entries)
  = Ok (List.map (fun m => idEntry (ModelInfo.id m))
          (filterOpenAIModels localeCompare
             (List.map (fun i => {| raw_id := i |}) ids))).
Proof.
  intros Hentries. unfold filterOpenAIModels_any.
  rewrite (mapM_Forall2 rawModel entries
             (List.map (fun i => {| raw_id := i |}) ids)).
  - simpl. f_equal. apply map_ext_in. intros m Hm.
    apply In_sortBy, in_map_iff in Hm as (r & <- & _). reflexivity.
  - induction Hentries as [|e i es is_ (fields & -> & Hi) _ IH]; simpl;
      [constructor|].
    constructor; [|exact IH].
    unfold rawModel. simpl. by rewrite Hi.
Qed.

End Listings.

Lemma parseOllamaModels_listing_witness :
  parseOllamaModels ordinalCompare
    (VObj [(lit "models",
            VArr [VObj [(lit "name", VStr (lit "zebra")); (lit "size", VNum 7)];
                  VObj [(lit "name", VStr (lit "alpha"))]])])
  = Ok (List.map idEntry
          (sortBy ordinalCompare (fun n => n) [lit "zebra"; lit "alpha"])).
Proof.
  apply (parseOllamaModels_listing ordinalCompare _
           [VObj [(lit "name", VStr (lit "zebra")); (lit "size", VNum 7)];
            VObj [(lit "name", VStr (lit "alpha"))]]
           [lit "zebra"; lit "alpha"]).
  - reflexivity.
  - repeat constructor; eexists; split; reflexivity.
Defined.


Lemma filterOpenAIModels_untyped_witness :
  filterOpenAIModels_any ordinalCompare
    (VArr [VObj [(lit "id", VStr (lit "gpt-4o")); (lit "object", VStr (lit "model"))];
           VObj [(lit "id", VStr (lit "whisper-1"))]])
  = Ok (List.map (fun m => idEntry (ModelInfo.id m))
          (filterOpenAIModels ordinalCompare
             (List.map (fun i => {| raw_id := i |})
                [lit "gpt-4o"; lit "whisper-1"]))).
Proof.
  apply (filterOpenAIModels_untyped ordinalCompare).
  repeat constructor; eexists; split; reflexivity.
Defined.

(** ** The deny list and the order of the listing *)

(** X27.  The deny list removes nothing that the allow list lets in: a
    model is kept exactly when its id starts with an allowed prefix,
    since no denied prefix can start such an id. *)
Theorem keepModel_allowed (r : RawModel) :
  keepModel r = matchesChat (raw_id r).
Proof.
  unfold keepModel. destruct (matchesChat (raw_id r)) eqn:Hc; [|done].
  destruct r as [id]. simpl in *.
  destruct id as [|c rest]; [discriminate|].
  unfold matchesChat, excluded in *.
  set (allow := chatPrefixes) in *. vm_compute in allow. subst allow.
  set (deny := excludePrefixes). vm_compute in deny. subst deny.
  cbn [existsb startsWith] in *.
  destruct (N.eqb_spec 103 c) as [<-|]; [reflexivity|].
  destruct (N.eqb_spec 111 c) as [<-|]; [reflexivity|].
  destruct (N.eqb_spec 99 c) as [<-|]; [reflexivity|].
  discriminate.
Qed.


Section ListingOrder.

Variable localeCompare : list N -> list N -> Z.

Hypothesis localeCompare_total :
  forall a b, (localeCompare a b <= 0 \/ localeCompare b a <= 0)%Z.
Hypothesis localeCompare_trans :
  forall a b c,
    (localeCompare a b <= 0 -> localeCompare b c <= 0 ->
     localeCompare a c <= 0)%Z.
(** Distinct strings are never ranked equal. *)
Hypothesis localeCompare_antisym :
  forall a b,
    (localeCompare a b <= 0 -> localeCompare b a <= 0 -> a = b)%Z.



End ListingOrder.


(** ** Sanitizing twice *)

(** X29.  A sanitized name is a fixed point of [sanitizeFileName]:
    sanitizing the result again, as a second save of the same selection
    would, changes nothing. *)
Theorem sanitizeFileName_idempotent (name : list N) :
  sanitizeFileName (sanitizeFileName name) = sanitizeFileName name.
Proof.
  destruct (sanitizeFileName_shape name)
    as (Hclean & [Hpos Hlen] & Hhead & Hlast & _).
  set (r := sanitizeFileName name) in *.
  rewrite sanitizeFileName_unfold, filter_unforbidden by done.
  rewrite firstn_all2 by lia.
  assert (Ht : trim r = r).
  { destruct r as [|a rest] eqn:Hr; [simpl in Hpos; lia|].
    destruct (exists_last (l := a :: rest)) as (front & b & Hfront);
      [discriminate|].
    apply (trim_id (a :: rest) a b).
    - reflexivity.
    - rewrite Hfront, length_app. simpl.
      replace (length front + 1 - 1) with (length front + 0) by lia.
      by rewrite lookup_app_r, Nat.add_0_r, Nat.sub_diag by lia.
    - by eapply Hhead.
    - by eapply Hlast. }
  rewrite Ht. destruct r; [simpl in Hpos; lia|done].
Qed.

Lemma numberedCopy_terminates_witness :
  exists k,
    (1 <= k)%N
    /\ (numberedPath [] (lit "Topic") k
        ∉ ({[ notePath [] (lit "Topic") ]} : gset (list N)))
    /\ (forall j, (1 <= j < k)%N ->
        numberedPath [] (lit "Topic") j
        ∈ ({[ notePath [] (lit "Topic") ]} : gset (list N)))
    /\ forall fuel, N.to_nat k < fuel ->
         handleChoiceNew (existsIn {[ notePath [] (lit "Topic") ]}) []
           (lit "Topic") fuel
         = Some (numberedPath [] (lit "Topic") k).
Proof.
  apply (numberedCopy_terminates {[ notePath [] (lit "Topic") ]} []
           (lit "Topic")).
  apply elem_of_singleton. reflexivity.
Defined.
